(** * nite-stdcmd: the NITE Standard Command module

    A shallow embedding of [nite_stdcmd/__init__.py] and the properties of
    its command pipeline: the [CommandEvent] record, the per-connection
    [CommandHandler.handle_read], the [CommandServer] constructor and the
    [StdCmd] controller ([start], [stop], [on_command] and the three
    built-in handlers).

    Python values are modelled as follows:
    - [str] is a list of Unicode code points ([pystr]);
    - [bytes] is a list of [byte];
    - an attribute of an instance is [Missing] until it is first assigned,
      may hold [None] ([PyNone]) or an object ([Obj]);
    - a [dict] is an association list in insertion order with unique keys;
    - a method is a function from the state it can reach to an [outcome]:
      it returns normally or raises, and the state survives either way. *)

From Stdlib Require Import List NArith ZArith Bool Ascii String Lia.
From Stdlib.Strings Require Import Byte.
From Stdlib Require Import DecimalString.
Import ListNotations.

Set Implicit Arguments.

(* ================================================================= *)
(** ** Python strings and bytes *)

Module Py.

Definition codepoint := N.
Definition pystr := list codepoint.
Definition bytes := list byte.

(** An ASCII literal as a Python [str]. *)
Definition str (s : string) : pystr :=
  map N_of_ascii (list_ascii_of_string s).

(** An ASCII literal as a Python [bytes]. *)
Definition lit (s : string) : bytes := list_byte_of_string s.

Definition NL : codepoint := 10%N.
Definition SPACE : codepoint := 32%N.
Definition DQUOTE : codepoint := 34%N.
Definition COLON : codepoint := 58%N.

Definition str_eqb (a b : pystr) : bool :=
  if list_eq_dec N.eq_dec a b then true else false.

(** Truth value of a [str]: the empty string is false. *)
Definition truthy (s : pystr) : bool :=
  match s with [] => false | _ :: _ => true end.

(** [bytes.rstrip()] removes trailing ASCII whitespace:
    space, tab, line feed, vertical tab, form feed, carriage return. *)
Definition bytes_isspace (b : byte) : bool :=
  let n := Byte.to_N b in
  ((n =? 32) || ((9 <=? n) && (n <=? 13)))%N.

Fixpoint bytes_rstrip (bs : bytes) : bytes :=
  match bs with
  | [] => []
  | b :: rest =>
      match bytes_rstrip rest with
      | [] => if bytes_isspace b then [] else [b]
      | r => b :: r
      end
  end.

(** [str.isspace] on one code point: the Unicode whitespace set. *)
Definition isspace (c : codepoint) : bool :=
  (((9 <=? c) && (c <=? 13)) || ((28 <=? c) && (c <=? 32))
   || (c =? 133) || (c =? 160) || (c =? 5760)
   || ((8192 <=? c) && (c <=? 8202))
   || (c =? 8232) || (c =? 8233) || (c =? 8239) || (c =? 8287)
   || (c =? 12288))%N.

(** [str.rstrip()] removes trailing Unicode whitespace. *)
Fixpoint rstrip (s : pystr) : pystr :=
  match s with
  | [] => []
  | c :: rest =>
      match rstrip rest with
      | [] => if isspace c then [] else [c]
      | r => c :: r
      end
  end.

(** [s.split(sep)] for a one-character separator: never empty. *)
Fixpoint split_on (sep : codepoint) (s : pystr) : list pystr :=
  match s with
  | [] => [[]]
  | c :: rest =>
      if (c =? sep)%N then [] :: split_on sep rest
      else match split_on sep rest with
           | [] => [[c]]
           | w :: ws => (c :: w) :: ws
           end
  end.

(** [s.split()]: the maximal runs of non-whitespace characters. *)
Fixpoint split_ws (s : pystr) : list pystr :=
  match s with
  | [] => []
  | c :: rest =>
      if isspace c then split_ws rest
      else match rest with
           | [] => [[c]]
           | c' :: _ =>
               if isspace c' then [c] :: split_ws rest
               else match split_ws rest with
                    | [] => [[c]]
                    | w :: ws => (c :: w) :: ws
                    end
           end
  end.

(** [sep.join(parts)]. *)
Fixpoint join (sep : pystr) (parts : list pystr) : pystr :=
  match parts with
  | [] => []
  | [p] => p
  | p :: ps => p ++ sep ++ join sep ps
  end.

(** [c in s] for a single character. *)
Definition contains (c : codepoint) (s : pystr) : bool :=
  existsb (N.eqb c) s.

(** Lexicographic [<=] on [str], as Python compares strings. *)
Fixpoint str_leb (a b : pystr) : bool :=
  match a, b with
  | [], _ => true
  | _ :: _, [] => false
  | x :: a', y :: b' =>
      if (x <? y)%N then true
      else if (x =? y)%N then str_leb a' b' else false
  end.

(** *** UTF-8 *)

Definition is_cont (b : N) : bool := ((128 <=? b) && (b <? 192))%N.

(** The second byte of a three-byte sequence is rejected when it is not a
    continuation byte, when it would give an overlong form (lead E0) or a
    surrogate (lead ED). *)
Definition bad_second3 (b0 b1 : N) : bool :=
  negb (is_cont b1)
  || (if (b1 <? 160)%N then (b0 =? 224)%N else (b0 =? 237)%N).

(** The second byte of a four-byte sequence: overlong forms (lead F0) and
    code points above U+10FFFF (lead F4) are rejected. *)
Definition bad_second4 (b0 b1 : N) : bool :=
  negb (is_cont b1)
  || (if (b1 <? 144)%N then (b0 =? 240)%N else (b0 =? 244)%N).

Definition cp2 (b0 b1 : N) : codepoint :=
  ((b0 - 192) * 64 + (b1 - 128))%N.
Definition cp3 (b0 b1 b2 : N) : codepoint :=
  ((b0 - 224) * 4096 + (b1 - 128) * 64 + (b2 - 128))%N.
Definition cp4 (b0 b1 b2 b3 : N) : codepoint :=
  ((b0 - 240) * 262144 + (b1 - 128) * 4096 + (b2 - 128) * 64 + (b3 - 128))%N.

(** [bs.decode('UTF8', 'ignore')].  An invalid start byte is skipped; after
    an invalid continuation byte the bytes of the sequence read so far are
    skipped and decoding resumes at the offending byte; a sequence cut off by
    the end of the data is dropped. *)
Fixpoint decode_ignore (bs : bytes) : pystr :=
  match bs with
  | [] => []
  | x0 :: r0 =>
      let b0 := Byte.to_N x0 in
      if (b0 <? 128)%N then b0 :: decode_ignore r0
      else if (b0 <? 194)%N then decode_ignore r0
      else if (b0 <? 224)%N then
        match r0 with
        | [] => []
        | x1 :: r1 =>
            let b1 := Byte.to_N x1 in
            if is_cont b1 then cp2 b0 b1 :: decode_ignore r1
            else decode_ignore r0
        end
      else if (b0 <? 240)%N then
        match r0 with
        | [] => []
        | x1 :: r1 =>
            let b1 := Byte.to_N x1 in
            if bad_second3 b0 b1 then decode_ignore r0
            else
              match r1 with
              | [] => []
              | x2 :: r2 =>
                  let b2 := Byte.to_N x2 in
                  if is_cont b2 then cp3 b0 b1 b2 :: decode_ignore r2
                  else decode_ignore r1
              end
        end
      else if (b0 <? 245)%N then
        match r0 with
        | [] => []
        | x1 :: r1 =>
            let b1 := Byte.to_N x1 in
            if bad_second4 b0 b1 then decode_ignore r0
            else
              match r1 with
              | [] => []
              | x2 :: r2 =>
                  let b2 := Byte.to_N x2 in
                  if negb (is_cont b2) then decode_ignore r1
                  else
                    match r2 with
                    | [] => []
                    | x3 :: r3 =>
                        let b3 := Byte.to_N x3 in
                        if is_cont b3
                        then cp4 b0 b1 b2 b3 :: decode_ignore r3
                        else decode_ignore r2
                    end
              end
        end
      else decode_ignore r0
  end.

Definition byte_of (n : N) : byte :=
  match Byte.of_N n with Some b => b | None => x00 end.

(** The UTF-8 form of one code point; surrogates (and values that are not
    code points) cannot be encoded. *)
Definition encode_cp (c : codepoint) : option bytes :=
  if (c <? 128)%N then Some [byte_of c]
  else if (c <? 2048)%N then
    Some [byte_of (192 + c / 64); byte_of (128 + c mod 64)]
  else if ((55296 <=? c) && (c <? 57344))%N then None
  else if (c <? 65536)%N then
    Some [byte_of (224 + c / 4096); byte_of (128 + (c / 64) mod 64);
          byte_of (128 + c mod 64)]
  else if (c <? 1114112)%N then
    Some [byte_of (240 + c / 262144); byte_of (128 + (c / 4096) mod 64);
          byte_of (128 + (c / 64) mod 64); byte_of (128 + c mod 64)]
  else None.

(** [s.encode('UTF8')]: [None] stands for [UnicodeEncodeError]. *)
Fixpoint encode (s : pystr) : option bytes :=
  match s with
  | [] => Some []
  | c :: rest =>
      match encode_cp c, encode rest with
      | Some b, Some bs => Some (b ++ bs)
      | _, _ => None
      end
  end.

End Py.
Import Py.

(** ['...%s...' % arg] for a [str] argument: the first [%s] of the format is
    replaced by the argument (the formats of this module have exactly one
    conversion). *)
Fixpoint percent_s (fmt arg : pystr) : pystr :=
  match fmt with
  | [] => []
  | c :: rest =>
      match rest with
      | c' :: rest' =>
          if ((c =? 37) && (c' =? 115))%N then arg ++ rest'
          else c :: percent_s rest arg
      | [] => [c]
      end
  end.

(** [dict] with [str] keys, in insertion order; [dict_get d k] is [None]
    exactly when [k in d] is false. *)
Section Dict.
Variable V : Type.
Definition dict := list (pystr * V).

Fixpoint dict_get (d : dict) (k : pystr) : option V :=
  match d with
  | [] => None
  | (k', v) :: rest => if str_eqb k k' then Some v else dict_get rest k
  end.

(** [d[k] = v]: an existing key keeps its place. *)
Fixpoint dict_set (d : dict) (k : pystr) (v : V) : dict :=
  match d with
  | [] => [(k, v)]
  | (k', v') :: rest =>
      if str_eqb k k' then (k, v) :: rest else (k', v') :: dict_set rest k v
  end.

(** A dict display [{k1: v1, ...}]. *)
Definition dict_literal (items : list (pystr * V)) : dict :=
  fold_left (fun d kv => dict_set d (fst kv) (snd kv)) items [].

Definition dict_keys (d : dict) : list pystr := map fst d.

(** [d.get(k, default)] *)
Definition dict_get_default (d : dict) (k : pystr) (default : V) : V :=
  match dict_get d k with Some v => v | None => default end.
End Dict.

(* ================================================================= *)
(** ** Exceptions, outcomes and attributes *)

Inductive exception :=
| AttributeError | TypeError | IndexError | ValueError | OSError
| UnicodeEncodeError
| OtherError (name : string).

(** The result of running a method on a state of type [S]. *)
Inductive outcome (S : Type) :=
| Normal (s : S)
| Raise (e : exception) (s : S).
Arguments Normal {S} s.
Arguments Raise {S} e s.

Definition final {S} (o : outcome S) : S :=
  match o with Normal s => s | Raise _ s => s end.

Definition raised {S} (o : outcome S) : option exception :=
  match o with Normal _ => None | Raise e _ => Some e end.

Definition and_then {S} (o : outcome S) (k : S -> outcome S) : outcome S :=
  match o with Normal s => k s | Raise e s => Raise e s end.

Notation "o >>> k" := (and_then o k) (at level 60, right associativity).

(** Run a method that only sees the second component of the state. *)
Definition on_snd {A S} (m : S -> outcome S) (st : A * S) : outcome (A * S) :=
  match m (snd st) with
  | Normal s => Normal (fst st, s)
  | Raise e s => Raise e (fst st, s)
  end.

(** An instance attribute: absent until assigned, then [None] or an object. *)
Inductive attr (T : Type) :=
| Missing
| PyNone
| Obj (v : T).
Arguments Missing {T}.
Arguments PyNone {T}.
Arguments Obj {T} v.

(* ================================================================= *)
(** ** Data model *)

(** [class CommandEvent]: [__init__] stores the command, clears [handled]
    and sets [response] to [None]. *)
Record CommandEvent := mkCommandEvent {
  command : pystr;
  response : option pystr;
  handled : bool
}.

Definition CommandEvent_init (cmd : pystr) : CommandEvent :=
  {| command := cmd; handled := false; response := None |}.

Definition set_response (e : CommandEvent) (r : option pystr) : CommandEvent :=
  {| command := command e; response := r; handled := handled e |}.

(** The callables stored in the registry: the three bound methods of
    [StdCmd], or a callable of another module, known by a number. *)
Inductive handler :=
| OnHelpCommand
| OnStopCommand
| OnReloadCommand
| ForeignHandler (id : nat).

(** [self.handlers]: token -> [description, callable]. *)
Definition registry := dict (pystr * handler).

Definition builtin (h : handler) : bool :=
  match h with ForeignHandler _ => false | _ => true end.

(** [threading.Thread(target=self.create_server, kwargs=...)] *)
Record Thread := mkThread {
  kw_bind_address : pystr;
  kw_listen_backlog : Z
}.

(** [threading.Event] *)
Record ThreadingEvent := mkThreadingEvent { is_set : bool }.

Inductive family := AF_UNIX | AF_INET.
Inductive socktype := SOCK_STREAM.

(** The argument of [bind]: a path, or a (host, port) pair. *)
Inductive bind_args :=
| PathAddr (path : pystr)
| HostPort (host : pystr) (port : Z).

Record CommandServer := mkCommandServer {
  srv_family : family;
  srv_bind_args : bind_args;
  srv_listen_backlog : Z
}.

(** The attributes of a [StdCmd] instance. *)
Record StdCmd := mkStdCmd {
  handlers : attr registry;
  server : attr CommandServer;
  thread : attr Thread;
  terminate : attr ThreadingEvent
}.

(** The class has no constructor and no class-level defaults: the four
    attributes exist only once [start] or [create_server] assigns them. *)
Definition StdCmd_new : StdCmd :=
  {| handlers := Missing; server := Missing;
     thread := Missing; terminate := Missing |}.

Inductive pyval := PStr (s : pystr) | PInt (n : Z).

Inductive syscall :=
| create_socket (f : family) (t : socktype)
| set_reuse_addr
| os_remove (path : pystr)
| sock_bind (a : bind_args)
| sock_listen (backlog : Z).

(** What the module does to the outside, in order. *)
Inductive effect :=
| Debug (fmt : pystr) (args : list pyval)
| ThreadStart (t : Thread)
| Sys (c : syscall).

Inductive event_kind := CommandEvent_class | OtherEvent (name : string).
Inductive listener := StdCmd_on_command | OtherListener (name : string).
Inductive EventPriority := LOWEST | OtherPriority (level : Z).

Record registration := mkRegistration {
  reg_kind : event_kind;
  reg_listener : listener;
  reg_priority : EventPriority
}.

(** Everything the controller can reach: its own attributes, the host's
    configuration and event bus, the terminal, and the effects so far. *)
Record World := mkWorld {
  self : StdCmd;
  config : dict pystr;
  listeners : list registration;
  tty : pystr;
  trace : list effect
}.

Definition with_self (w : World) (m : StdCmd) : World :=
  {| self := m; config := config w; listeners := listeners w;
     tty := tty w; trace := trace w |}.

Definition emit (w : World) (e : effect) : World :=
  {| self := self w; config := config w; listeners := listeners w;
     tty := tty w; trace := trace w ++ [e] |}.

(** [prettytable.PrettyTable] as this module fills it in. *)
Record PrettyTable := mkPrettyTable {
  field_names : list pystr;
  align : pystr;
  max_width : Z;
  rows : list (list pystr)
}.

(** A connection: [CommandHandler]; [out_buffer] holds, in order, the bytes
    that have been handed to [self.send] of [asyncore.dispatcher_with_send]
    (the transport drains them towards the peer on its own). *)
Record CommandHandler := mkCommandHandler {
  client_address : pystr;
  out_buffer : bytes
}.

(** [self.send(data)]: the bytes handed over are recorded after those of
    the earlier calls. *)
Definition send (h : CommandHandler) (data : bytes) : CommandHandler :=
  {| client_address := client_address h;
     out_buffer := out_buffer h ++ data |}.

(** What the module takes from outside this repository. *)
Record Environment := mkEnvironment {
  (** the builtin [int(s)]; [None] is [ValueError] *)
  py_int : pystr -> option Z;
  (** [str(table)] of prettytable *)
  str_table : PrettyTable -> pystr;
  (** [NITE.stop()] and [NITE.start()] of the host *)
  NITE_stop : World -> outcome World;
  NITE_start : World -> outcome World;
  (** [NITE.events.handle(event)]: the listeners mutate the event *)
  events_handle : CommandEvent * World -> outcome (CommandEvent * World);
  (** a callable registered by another module *)
  foreign_handler : nat -> CommandEvent * World -> outcome (CommandEvent * World);
  (** the failure, if any, of an operating-system call *)
  sys_error : syscall -> option exception
}.

(* ================================================================= *)
(** ** The module *)

Definition bind_address_key : pystr := str "nite.command.bind_address".
Definition listen_backlog_key : pystr := str "nite.command.listen_backlog".

(** The registry that [start] builds. *)
Definition start_handlers : registry :=
  dict_literal
    [ (str "help", (str "Show this help menu", OnHelpCommand));
      (str "stop", (str "Stop NITE", OnStopCommand));
      (str "reload", (str "Reload NITE", OnReloadCommand)) ].

(** Modelled from the spec: the host event bus of [nite.event], which is not
    part of this repository; [register(kind, listener, priority)] records the
    listener for the event kind with its priority. *)
Definition events_register (r : registration) (w : World) : World :=
  {| self := self w; config := config w; listeners := listeners w ++ [r];
     tty := tty w; trace := trace w |}.

Definition on_command_registration : registration :=
  {| reg_kind := CommandEvent_class;
     reg_listener := StdCmd_on_command;
     reg_priority := LOWEST |}.

(** ['Invalid command: %s\nTry using "help" for a list of commands'] *)
Definition invalid_command_format : pystr :=
  str "Invalid command: %s" ++ [NL] ++ str "Try using " ++ [DQUOTE]
  ++ str "help" ++ [DQUOTE] ++ str " for a list of commands".

(** The rows [on_help_command] adds: one per item of the registry, in the
    order in which the dict yields them. *)
Definition help_rows (reg : registry) : list (list pystr) :=
  map (fun item => [fst item; fst (snd item)]) reg.

Definition help_table (reg : registry) (width : Z) : PrettyTable :=
  {| field_names := [str "Command"; str "Description"];
     align := str "l";
     max_width := width;
     rows := help_rows reg |}.

(** [bind_address.split(':')] decides the socket family. *)
Definition socket_family (bind_address : pystr) : family :=
  match List.length (split_on COLON bind_address) with
  | 1 => AF_UNIX
  | _ => AF_INET
  end.

Section StdCmdModule.

Variable env : Environment.

(** [int(os.popen('stty size', 'r').read().split()[0])]: the first field of
    what [stty size] printed. *)
Definition stty_first_field (w : World) : exception + Z :=
  match split_ws (tty w) with
  | [] => inl IndexError
  | field :: _ =>
      match py_int env field with
      | None => inl ValueError
      | Some n => inr n
      end
  end.

(** [StdCmd.on_help_command] *)
Definition on_help_command (st : CommandEvent * World)
  : outcome (CommandEvent * World) :=
  let (cmd_event, w) := st in
  match stty_first_field w with
  | inl e => Raise e st
  | inr width =>
      match handlers (self w) with
      | Missing => Raise AttributeError st
      | PyNone => Raise AttributeError st
      | Obj reg =>
          Normal (set_response cmd_event
                    (Some (str_table env (help_table reg width))), w)
      end
  end.

(** [StdCmd.on_stop_command] *)
Definition on_stop_command (st : CommandEvent * World)
  : outcome (CommandEvent * World) :=
  on_snd (NITE_stop env) st.

(** [StdCmd.on_reload_command] *)
Definition on_reload_command (st : CommandEvent * World)
  : outcome (CommandEvent * World) :=
  on_snd (NITE_stop env) st >>> on_snd (NITE_start env).

Definition call (h : handler) : CommandEvent * World -> outcome (CommandEvent * World) :=
  match h with
  | OnHelpCommand => on_help_command
  | OnStopCommand => on_stop_command
  | OnReloadCommand => on_reload_command
  | ForeignHandler id => foreign_handler env id
  end.

(** [cmd_event.command.split(' ')[0]] *)
Definition token (cmd_event : CommandEvent) : pystr :=
  hd [] (split_on SPACE (command cmd_event)).

(** [StdCmd.on_command] *)
Definition on_command (st : CommandEvent * World)
  : outcome (CommandEvent * World) :=
  let (cmd_event, w) := st in
  if handled cmd_event then Normal st
  else
    match handlers (self w) with
    | Missing => Raise AttributeError st
    | PyNone => Raise TypeError st
    | Obj reg =>
        match dict_get reg (token cmd_event) with
        | Some meta => call (snd meta) st
        | None =>
            Normal (set_response cmd_event
                      (Some (percent_s invalid_command_format
                               (command cmd_event))), w)
        end
    end.

(** [StdCmd.start] *)
Definition start (w : World) : outcome World :=
  let w := with_self w {| handlers := Obj start_handlers;
                          server := server (self w);
                          thread := thread (self w);
                          terminate := terminate (self w) |} in
  let bind_address :=
    dict_get_default (config w) bind_address_key (str "/tmp/nite.sock") in
  match py_int env (dict_get_default (config w) listen_backlog_key (str "5")) with
  | None => Raise ValueError w
  | Some listen_backlog =>
      let w :=
        if truthy bind_address then
          let w := emit w (Debug (str "Creating a thread to run the command server") []) in
          let t := {| kw_bind_address := bind_address;
                      kw_listen_backlog := listen_backlog |} in
          let w := with_self w {| handlers := handlers (self w);
                                  server := server (self w);
                                  thread := Obj t;
                                  terminate := Obj {| is_set := false |} |} in
          emit w (ThreadStart t)
        else w in
      Normal (events_register on_command_registration w)
  end.

(** [StdCmd.stop] *)
Definition stop (w : World) : outcome World :=
  match thread (self w) with
  | Missing => Raise AttributeError w
  | PyNone => Normal w
  | Obj _ =>
      let w := emit w (Debug (str "Attempting to terminate the command server thread") []) in
      match terminate (self w) with
      | Missing => Raise AttributeError w
      | PyNone => Raise AttributeError w
      | Obj _ =>
          Normal (with_self w {| handlers := handlers (self w);
                                 server := server (self w);
                                 thread := thread (self w);
                                 terminate := Obj {| is_set := true |} |})
      end
  end.

(** Lines 95-96: [if cmd_event.response: self.send(...)]. *)
Definition reply (h : CommandHandler) (cmd_event : CommandEvent) (w : World)
  : outcome (CommandHandler * World) :=
  match response cmd_event with
  | None => Normal (h, w)
  | Some r =>
      if truthy r then
        match encode (r ++ [NL]) with
        | None => Raise UnicodeEncodeError (h, w)
        | Some payload => Normal (send h payload, w)
        end
      else Normal (h, w)
  end.

(** [CommandHandler.handle_read], on the chunk that [recv(8192)] returned. *)
Definition handle_read (chunk : bytes) (st : CommandHandler * World)
  : outcome (CommandHandler * World) :=
  let (h, w) := st in
  let data := decode_ignore (bytes_rstrip chunk) in
  if truthy data then
    match events_handle env (CommandEvent_init data, w) with
    | Raise e (_, w') => Raise e (h, w')
    | Normal (cmd_event, w') => reply h cmd_event w'
    end
  else Normal st.

(** An operating-system call: recorded, then it succeeds or raises. *)
Definition os_call (c : syscall) (w : World) : outcome World :=
  let w := emit w (Sys c) in
  match sys_error env c with
  | None => Normal w
  | Some e => Raise e w
  end.

Definition debug (fmt : pystr) (args : list pyval) (w : World) : outcome World :=
  Normal (emit w (Debug fmt args)).

(** [(':'.join(split[0:-1]), int(split[-1]))] *)
Definition inet_bind_args (split : list pystr) : exception + bind_args :=
  match py_int env (last split []) with
  | None => inl ValueError
  | Some port => inr (HostPort (join [COLON] (removelast split)) port)
  end.

(** Lines 130-135: [try: os.remove(...); logger.debug(...)]
    [except OSError: pass]. *)
Definition remove_stale_socket (bind_address : pystr) (w : World)
  : outcome World :=
  match os_call (os_remove bind_address) w with
  | Normal w =>
      debug (str "Removed stale socket file " ++ [DQUOTE] ++ str "%s" ++ [DQUOTE])
            [PStr bind_address] w
  | Raise OSError w => Normal w
  | Raise e w => Raise e w
  end.

(** Lines 141-145: bind, then listen. *)
Definition bind_and_listen (bind_address : pystr) (listen_backlog : Z)
    (args : bind_args) (w : World) : outcome World :=
  debug (str "Binding socket to " ++ [DQUOTE] ++ str "%s" ++ [DQUOTE])
        [PStr bind_address] w >>> fun w =>
  os_call (sock_bind args) w >>> fun w =>
  debug (str "Setting socket listen backlog to " ++ [DQUOTE] ++ str "%s" ++ [DQUOTE])
        [PInt listen_backlog] w >>> fun w =>
  os_call (sock_listen listen_backlog) w.

(** [CommandServer.__init__]; asyncore's [set_reuse_addr] swallows its own
    socket errors. *)
Definition CommandServer_init (bind_address : pystr) (listen_backlog : Z)
    (w : World) : outcome World :=
  let split := split_on COLON bind_address in
  let socket_type := socket_family bind_address in
  os_call (create_socket socket_type SOCK_STREAM) w >>> fun w =>
  Normal (emit w (Sys set_reuse_addr)) >>> fun w =>
  match socket_type with
  | AF_UNIX =>
      remove_stale_socket bind_address w >>>
      bind_and_listen bind_address listen_backlog (PathAddr bind_address)
  | AF_INET =>
      match inet_bind_args split with
      | inl e => Raise e w
      | inr args => bind_and_listen bind_address listen_backlog args w
      end
  end.

End StdCmdModule.

(* ================================================================= *)
(** ** Notions used by the statements *)

(** Column one of the table, top to bottom. *)
Definition first_column (t : PrettyTable) : list pystr :=
  map (hd []) (rows t).

(** Ascending order of a list of [str]. *)
Fixpoint ascending (l : list pystr) : bool :=
  match l with
  | [] => true
  | a :: rest =>
      match rest with
      | [] => true
      | b :: _ => str_leb a b && ascending rest
      end
  end.

(** The command as the specification words it: the chunk decoded, invalid
    bytes ignored, and the text then trimmed of trailing whitespace. *)
Definition decoded_then_trimmed (chunk : bytes) : pystr :=
  rstrip (decode_ignore chunk).

(** Every callable of the registry is one of the three built-in handlers. *)
Definition builtin_registry (m : StdCmd) : Prop :=
  match handlers m with
  | Obj reg => Forall (fun item => builtin (snd (snd item)) = true) reg
  | _ => True
  end.

(** The bind address that [start] reads from the configuration. *)
Definition configured_bind_address (w : World) : pystr :=
  dict_get_default (config w) bind_address_key (str "/tmp/nite.sock").

Definition configured_listen_backlog (w : World) : pystr :=
  dict_get_default (config w) listen_backlog_key (str "5").

(* ================================================================= *)
(** ** A concrete environment, for running the model *)

(** Unsigned ASCII decimals, on which it agrees with the builtin [int]. *)
Fixpoint decimal_digits (acc : Z) (s : pystr) : option Z :=
  match s with
  | [] => Some acc
  | c :: rest =>
      if ((48 <=? c) && (c <=? 57))%N
      then decimal_digits (10 * acc + Z.of_N (c - 48)) rest
      else None
  end.

Definition decimal_int (s : pystr) : option Z :=
  match s with
  | [] => None
  | _ :: _ => decimal_digits 0 s
  end.

(** A stand-in renderer: one line per row, cells separated by a bar. *)
Definition plain_table (t : PrettyTable) : pystr :=
  join [NL] (map (join (str " | ")) (field_names t :: rows t)).

(** A host with this module alone and no other listener: its [stop] stops the
    module, its [start] does nothing more, and its bus hands every event
    straight back. *)
Definition quiet_env : Environment :=
  {| py_int := decimal_int;
     str_table := plain_table;
     NITE_stop := stop;
     NITE_start := fun w => Normal w;
     events_handle := fun st => Normal st;
     foreign_handler := fun _ st => Normal st;
     sys_error := fun _ => None |}.

(** The same host once the module is running: [start] starts the module and
    the bus delivers each [CommandEvent] to [on_command]. *)
Definition sample_env : Environment :=
  {| py_int := decimal_int;
     str_table := plain_table;
     NITE_stop := stop;
     NITE_start := start quiet_env;
     events_handle := on_command quiet_env;
     foreign_handler := fun _ st => Normal st;
     sys_error := fun _ => None |}.

(** A bus whose only listener answers every command with the command. *)
Definition echo_env : Environment :=
  {| py_int := decimal_int;
     str_table := plain_table;
     NITE_stop := stop;
     NITE_start := fun w => Normal w;
     events_handle :=
       fun st => Normal (set_response (fst st) (Some (command (fst st))), snd st);
     foreign_handler := fun _ st => Normal st;
     sys_error := fun _ => None |}.

(** A controller on which nothing has run yet, under a given configuration;
    the terminal is 24 rows by 80 columns. *)
Definition fresh_world (cfg : dict pystr) : World :=
  {| self := StdCmd_new; config := cfg; listeners := [];
     tty := str "24 80" ++ [NL]; trace := [] |}.

Definition fresh_connection : CommandHandler :=
  {| client_address := str "Unknown"; out_buffer := [] |}.

(** The state right after [start] under the default configuration. *)
Definition running_world : World := final (start quiet_env (fresh_world [])).

(** The same state when [stty size] prints nothing: the process has no
    controlling terminal, and [stty] only writes to its standard error. *)
Definition without_terminal (w : World) : World :=
  {| self := self w; config := config w; listeners := listeners w;
     tty := []; trace := trace w |}.

(* ================================================================= *)
(** ** The rest of the module: accepting connections, the server thread *)

(** [str(n)] for an [int]. *)
Definition py_str_int (n : Z) : pystr :=
  str (NilZero.string_of_int (Z.to_int n)).

(** [str(x)] for the values found in a socket address. *)
Definition py_str (v : pyval) : pystr :=
  match v with
  | PStr s => s
  | PInt n => py_str_int n
  end.

(** The address that [accept] reports for a peer: a tuple for the internet
    families; a [str] (empty for an unbound peer), [bytes] or [None] for
    Unix sockets. *)
Inductive sockaddr :=
| AddrTuple (items : list pyval)
| AddrStr (s : pystr)
| AddrBytes (b : bytes)
| AddrNone.

(** Truth value of an address: [None] and empty containers are false. *)
Definition addr_truthy (a : sockaddr) : bool :=
  match a with
  | AddrTuple [] | AddrStr [] | AddrBytes [] | AddrNone => false
  | _ => true
  end.

(** [[str(x) for x in addr]]: iterating a [str] yields its characters,
    iterating [bytes] yields integers. *)
Definition addr_strings (a : sockaddr) : list pystr :=
  match a with
  | AddrTuple items => map py_str items
  | AddrStr s => map (fun c => [c]) s
  | AddrBytes b => map (fun x => py_str_int (Z.of_N (Byte.to_N x))) b
  | AddrNone => []
  end.

(** [':'.join(list([str(x) for x in addr])) if addr else 'Unknown'] *)
Definition printable_address (a : sockaddr) : pystr :=
  if addr_truthy a then join [COLON] (addr_strings a) else str "Unknown".

(** [CommandHandler.__init__]: a connection starts with an empty send
    buffer. *)
Definition CommandHandler_init (addr : pystr) : CommandHandler :=
  {| client_address := addr; out_buffer := [] |}.

(** [CommandServer.handle_accept], on what [self.accept()] returned: asyncore
    gives [None] when no connection could be accepted after all, and
    unpacking [None] raises [TypeError].  The state is the world and the
    connections that the event loop polls. *)
Definition handle_accept (accepted : option sockaddr)
    (st : World * list CommandHandler) : outcome (World * list CommandHandler) :=
  let (w, connections) := st in
  match accepted with
  | None => Raise TypeError st
  | Some addr =>
      let addr := printable_address addr in
      let w := emit w (Debug (str "Client " ++ [DQUOTE] ++ str "%s" ++ [DQUOTE]
                              ++ str " connected to command server")
                             [PStr addr]) in
      Normal (w, connections ++ [CommandHandler_init addr])
  end.

(** ASCII whitespace as a code point: what [bytes.rstrip] removes once
    encoded. *)
Definition ascii_space (c : codepoint) : bool :=
  ((c =? 32) || ((9 <=? c) && (c <=? 13)))%N.

(** The arguments that the constructor passes to [bind]. *)
Definition chosen_bind_args (env : Environment) (bind_address : pystr)
  : exception + bind_args :=
  match socket_family bind_address with
  | AF_UNIX => inr (PathAddr bind_address)
  | AF_INET => inet_bind_args env (split_on COLON bind_address)
  end.

Section ServerThread.

Variable env : Environment.

(** One pass of [asyncore.loop(timeout=5, count=1)]: whatever the polled
    sockets' callbacks, and the other threads meanwhile, do to the state. *)
Variable poll : World -> outcome World.

(** [k] passes in a row. *)
Fixpoint polls (k : nat) (w : World) : outcome World :=
  match k with
  | O => Normal w
  | S k' => poll w >>> polls k'
  end.

(** [while not self.terminate.is_set(): asyncore.loop(timeout=5, count=1)];
    [None] when the fuel runs out before the loop ends. *)
Fixpoint serve (fuel : nat) (w : World) : option (outcome World) :=
  match fuel with
  | O => None
  | S fuel' =>
      match terminate (self w) with
      | Missing => Some (Raise AttributeError w)
      | PyNone => Some (Raise AttributeError w)
      | Obj ev =>
          if is_set ev then Some (Normal w)
          else match poll w with
               | Normal w' => serve fuel' w'
               | Raise e w' => Some (Raise e w')
               end
      end
  end.

(** [StdCmd.create_server]: the second component tells whether
    [self.server.close()] was reached. *)
Definition create_server (fuel : nat) (bind_address : pystr)
    (listen_backlog : Z) (w : World) : option (outcome (World * bool)) :=
  match CommandServer_init env bind_address listen_backlog w with
  | Raise e w => Some (Raise e (w, false))
  | Normal w =>
      match chosen_bind_args env bind_address with
      | inl e => Some (Raise e (w, false))
      | inr args =>
          let w := with_self w
                     {| handlers := handlers (self w);
                        server := Obj {| srv_family := socket_family bind_address;
                                         srv_bind_args := args;
                                         srv_listen_backlog := listen_backlog |};
                        thread := thread (self w);
                        terminate := terminate (self w) |} in
          match serve fuel w with
          | None => None
          | Some (Normal w) => Some (Normal (w, true))
          | Some (Raise e w) => Some (Raise e (w, false))
          end
      end
  end.

End ServerThread.

(** A controller on which another module has registered a command of its
    own before [start] runs. *)
Definition plugin_world : World :=
  with_self (fresh_world [])
    {| handlers := Obj [(str "status", (str "Show status", ForeignHandler 0))];
       server := Missing; thread := Missing; terminate := Missing |}.

(** A Unicode scalar value: a code point that is not a surrogate.  These
    are the characters that have a UTF-8 form. *)
Definition scalar_value (c : codepoint) : bool :=
  ((c <? 55296) || ((57344 <=? c) && (c <? 1114112)))%N.

(** A bus with a listener that answers every command with the single lone
    surrogate U+D800. *)
Definition surrogate_env : Environment :=
  {| py_int := decimal_int;
     str_table := plain_table;
     NITE_stop := stop;
     NITE_start := fun w => Normal w;
     events_handle :=
       fun st => Normal (set_response (fst st) (Some [55296%N]), snd st);
     foreign_handler := fun _ st => Normal st;
     sys_error := fun _ => None |}.

(* ================================================================= *)
(** ** Strings, bytes and dicts: basic facts *)

Lemma str_eqb_true (a b : pystr) : str_eqb a b = true <-> a = b.
Proof.
  unfold str_eqb. destruct (list_eq_dec N.eq_dec a b); split; congruence.
Qed.

Lemma str_eqb_refl (a : pystr) : str_eqb a a = true.
Proof. now apply str_eqb_true. Qed.

Lemma dict_get_None V (d : dict V) (k : pystr) :
  dict_get d k = None <-> ~ In k (dict_keys d).
Proof.
  induction d as [|[k' v] d IH]; simpl.
  - tauto.
  - destruct (str_eqb k k') eqn:E.
    + apply str_eqb_true in E. subst. split; [discriminate | tauto].
    + assert (k <> k') by (intro; subst; rewrite str_eqb_refl in E; discriminate).
      rewrite IH. split; intros; intuition congruence.
Qed.

Lemma dict_get_In V (d : dict V) (k : pystr) (v : V) :
  dict_get d k = Some v -> In (k, v) d.
Proof.
  induction d as [|[k' v'] d IH]; simpl; [discriminate|].
  destruct (str_eqb k k') eqn:E.
  - apply str_eqb_true in E. intros [= ->]. subst. now left.
  - auto.
Qed.

Lemma In_dict_get V (d : dict V) (k : pystr) (v : V) :
  NoDup (dict_keys d) -> In (k, v) d -> dict_get d k = Some v.
Proof.
  induction d as [|[k' v'] d IH]; simpl; [tauto|].
  intros ND [E|HIn].
  - injection E as -> ->. now rewrite str_eqb_refl.
  - inversion ND as [|? ? Hk ND']; subst.
    destruct (str_eqb k k') eqn:E.
    + apply str_eqb_true in E. subst. exfalso. apply Hk.
      unfold dict_keys. change k' with (fst (k', v)). now apply in_map.
    + auto.
Qed.

Lemma percent_s_invalid_command (c : pystr) :
  percent_s invalid_command_format c
  = str "Invalid command: " ++ c ++ [NL] ++ str "Try using " ++ [DQUOTE]
    ++ str "help" ++ [DQUOTE] ++ str " for a list of commands".
Proof. reflexivity. Qed.

(** *** [split] and [join] *)

Lemma split_on_nonempty sep s : split_on sep s <> [].
Proof.
  destruct s as [|c s]; simpl; [discriminate|].
  destruct (c =? sep)%N; [discriminate|].
  destruct (split_on sep s); discriminate.
Qed.

Lemma split_on_no_sep sep s :
  contains sep s = false -> split_on sep s = [s].
Proof.
  unfold contains. induction s as [|c s IH]; simpl; [reflexivity|].
  intros H. apply orb_false_iff in H as [Hc Hs].
  rewrite N.eqb_sym, Hc, (IH Hs). reflexivity.
Qed.

Lemma split_on_sep_length sep s :
  contains sep s = true -> (2 <= List.length (split_on sep s))%nat.
Proof.
  unfold contains. induction s as [|c s IH]; simpl; [discriminate|].
  rewrite (N.eqb_sym sep c). destruct (c =? sep)%N eqn:E; simpl.
  - intros _. pose proof (split_on_nonempty sep s).
    destruct (split_on sep s); simpl; [congruence | lia].
  - intros H. specialize (IH H).
    destruct (split_on sep s); simpl in *; lia.
Qed.

(** Joining the pieces with the separator gives the string back. *)
Lemma join_split_on sep s : join [sep] (split_on sep s) = s.
Proof.
  induction s as [|c s IH]; simpl; [reflexivity|].
  destruct (c =? sep)%N eqn:E.
  - apply N.eqb_eq in E. subst c.
    pose proof (split_on_nonempty sep s) as NE.
    destruct (split_on sep s) as [|p ps]; [congruence|].
    simpl in *. now rewrite IH.
  - destruct (split_on sep s) as [|p ps] eqn:S.
    + now destruct (split_on_nonempty sep s).
    + destruct ps; simpl in *; now rewrite <- IH.
Qed.

(** No piece contains the separator. *)
Lemma split_on_pieces sep s :
  Forall (fun p => contains sep p = false) (split_on sep s).
Proof.
  induction s as [|c s IH]; simpl.
  - repeat constructor.
  - destruct (c =? sep)%N eqn:E.
    + constructor; [reflexivity | exact IH].
    + destruct (split_on sep s) as [|p ps]; [repeat constructor; simpl|].
      * rewrite N.eqb_sym, E. reflexivity.
      * inversion IH; subst. constructor; [|assumption].
        unfold contains in *. simpl. rewrite N.eqb_sym, E. assumption.
Qed.

Lemma join_cons2 (sep p q : pystr) (l : list pystr) :
  join sep (p :: q :: l) = p ++ sep ++ join sep (q :: l).
Proof. reflexivity. Qed.

Lemma join_removelast_last sep (l : list pystr) :
  (2 <= List.length l)%nat ->
  join [sep] l = join [sep] (removelast l) ++ sep :: last l [].
Proof.
  induction l as [|p l IH]; [simpl; lia|].
  destruct l as [|q l]; [simpl; lia|]. intros _.
  destruct l as [|r l]; [reflexivity|].
  rewrite join_cons2, IH by (simpl; lia).
  change (removelast (p :: q :: r :: l)) with (p :: removelast (q :: r :: l)).
  change (last (p :: q :: r :: l) []) with (last (q :: r :: l) []).
  destruct (removelast (q :: r :: l)) eqn:R; [discriminate R|].
  rewrite join_cons2, <- !app_assoc. reflexivity.
Qed.

(** With a separator present, the string is what comes before its last
    separator, the separator, and a last piece without separator. *)
Lemma split_on_last sep s :
  contains sep s = true ->
  s = join [sep] (removelast (split_on sep s)) ++ sep :: last (split_on sep s) []
  /\ contains sep (last (split_on sep s) []) = false.
Proof.
  intros H. split.
  - rewrite <- join_removelast_last by now apply split_on_sep_length.
    symmetry. apply join_split_on.
  - pose proof (split_on_pieces sep s) as F.
    rewrite Forall_forall in F. apply F.
    pose proof (split_on_nonempty sep s).
    destruct (exists_last H0) as (l' & a & ->).
    rewrite last_last. apply in_or_app. right. now left.
Qed.

(** The decomposition at the last separator is unique. *)
Lemma last_sep_unique sep (h1 t1 h2 t2 : pystr) :
  h1 ++ sep :: t1 = h2 ++ sep :: t2 ->
  contains sep t1 = false -> contains sep t2 = false ->
  h1 = h2 /\ t1 = t2.
Proof.
  revert h2. induction h1 as [|c h1 IH]; intros [|d h2]; simpl; intros E N1 N2.
  - injection E as ->. auto.
  - injection E as <- ->. unfold contains in N1.
    rewrite existsb_app in N1. simpl in N1. rewrite N.eqb_refl in N1.
    rewrite orb_true_r in N1. discriminate.
  - injection E as -> <-. unfold contains in N2.
    rewrite existsb_app in N2. simpl in N2. rewrite N.eqb_refl in N2.
    rewrite orb_true_r in N2. discriminate.
  - injection E as -> E. destruct (IH _ E N1 N2) as [-> ->]. auto.
Qed.

(** *** [bytes.rstrip] *)

Lemma bytes_rstrip_split (bs : bytes) :
  exists ws, bs = bytes_rstrip bs ++ ws /\ forallb bytes_isspace ws = true.
Proof.
  induction bs as [|b bs (ws & E & W)]; simpl.
  - exists []. auto.
  - destruct (bytes_rstrip bs) as [|r rs] eqn:R.
    + simpl in E. subst ws. destruct (bytes_isspace b) eqn:B.
      * exists (b :: bs). simpl. now rewrite B, W.
      * exists bs. auto.
    + exists ws. split; [|assumption]. simpl in *. now f_equal.
Qed.

(** What remains does not end in whitespace. *)
Lemma bytes_rstrip_end (bs body : bytes) (b : byte) :
  bytes_rstrip bs = body ++ [b] -> bytes_isspace b = false.
Proof.
  revert body. induction bs as [|c bs IH]; simpl; intros body E.
  - now destruct body.
  - destruct (bytes_rstrip bs) as [|r rs] eqn:R.
    + destruct (bytes_isspace c) eqn:C.
      * now destruct body.
      * destruct body as [|? [|? ?]]; simpl in E; try discriminate.
        now injection E as <-.
    + destruct body as [|c' body]; simpl in E.
      * discriminate.
      * injection E as _ E. eapply IH. exact E.
Qed.

Lemma bytes_rstrip_whitespace (bs : bytes) :
  forallb bytes_isspace bs = true -> bytes_rstrip bs = [].
Proof.
  induction bs as [|b bs IH]; simpl; [reflexivity|].
  intros H. apply andb_true_iff in H as [Hb Hbs].
  now rewrite (IH Hbs), Hb.
Qed.

(** *** UTF-8 *)

Lemma to_N_byte_of (n : N) : (n < 256)%N -> Byte.to_N (byte_of n) = n.
Proof.
  intros H. unfold byte_of.
  pose proof (Byte.to_of_N_option_map n) as M.
  destruct (Byte.of_N n) as [b|]; simpl in M.
  - destruct (N.leb n 255); congruence.
  - destruct (N.leb_spec n 255); [discriminate | lia].
Qed.

Lemma some_inj A (x y : A) : Some x = Some y -> x = y.
Proof. congruence. Qed.

Lemma is_cont_true (b : N) : is_cont b = true <-> (128 <= b < 192)%N.
Proof. unfold is_cont. rewrite andb_true_iff, N.leb_le, N.ltb_lt. tauto. Qed.

Lemma is_cont_low (r : N) : (r < 64)%N -> is_cont (128 + r) = true.
Proof. intros. apply is_cont_true. lia. Qed.

Ltac ltb_cases :=
  repeat match goal with
         | |- context [(?a <? ?b)%N] => destruct (N.ltb_spec a b); try lia
         | |- context [(?a =? ?b)%N] => destruct (N.eqb_spec a b); try lia
         | |- context [(?a <=? ?b)%N] => destruct (N.leb_spec a b); try lia
         end.

(** One encoded code point in front of any bytes decodes to itself. *)
Lemma decode_encode_cp (c : N) (b rest : bytes) :
  encode_cp c = Some b -> decode_ignore (b ++ rest) = c :: decode_ignore rest.
Proof.
  unfold encode_cp.
  pose proof (N.div_mod c 64 ltac:(lia)) as D0.
  pose proof (N.mod_lt c 64 ltac:(lia)) as M0.
  pose proof (N.div_mod (c / 64) 64 ltac:(lia)) as D1.
  pose proof (N.mod_lt (c / 64) 64 ltac:(lia)) as M1.
  pose proof (N.div_mod (c / 4096) 64 ltac:(lia)) as D2.
  pose proof (N.mod_lt (c / 4096) 64 ltac:(lia)) as M2.
  replace (c / 64 / 64)%N with (c / 4096)%N in D1
    by (now rewrite N.Div0.div_div).
  replace (c / 4096 / 64)%N with (c / 262144)%N in D2
    by (now rewrite N.Div0.div_div).
  revert D0 M0 D1 M1 D2 M2.
  generalize (c / 262144)%N (c / 4096)%N (c / 64)%N (c mod 64)%N
             ((c / 4096) mod 64)%N ((c / 64) mod 64)%N.
  intros q3 q2 q1 r0 r2 r1 D0 M0 D1 M1 D2 M2.
  destruct (N.ltb_spec c 128).
  { intros E; apply some_inj in E; subst b. cbn [app decode_ignore].
    rewrite to_N_byte_of by lia. ltb_cases. reflexivity. }
  destruct (N.ltb_spec c 2048).
  { intros E; apply some_inj in E; subst b. cbn [app decode_ignore].
    repeat (rewrite to_N_byte_of by lia).
    rewrite is_cont_low by lia. unfold cp2. ltb_cases. f_equal. lia. }
  destruct ((55296 <=? c) && (c <? 57344))%N eqn:S; [discriminate|].
  apply andb_false_iff in S. rewrite N.leb_gt, N.ltb_ge in S.
  destruct (N.ltb_spec c 65536).
  { intros E; apply some_inj in E; subst b. cbn [app decode_ignore].
    repeat (rewrite to_N_byte_of by lia).
    unfold bad_second3. rewrite !is_cont_low by lia. unfold cp3. cbn [negb orb].
    ltb_cases; cbn [orb]; f_equal; lia. }
  destruct (N.ltb_spec c 1114112); [|discriminate].
  intros E; apply some_inj in E; subst b. cbn [app decode_ignore].
  repeat (rewrite to_N_byte_of by lia).
  unfold bad_second4. rewrite !is_cont_low by lia. unfold cp4. cbn [negb orb].
  ltb_cases; cbn [orb]; f_equal; lia.
Qed.

(** Decoding undoes encoding. *)
Lemma decode_encode (s : pystr) (out : bytes) :
  encode s = Some out -> decode_ignore out = s.
Proof.
  revert out. induction s as [|c s IH]; simpl; intros out.
  - now intros [= <-].
  - destruct (encode_cp c) as [b|] eqn:Ec; [|discriminate].
    destruct (encode s) as [bs|]; [|discriminate].
    intros [= <-]. pose proof (@decode_encode_cp c b bs Ec) as R. rewrite R. f_equal. now apply IH.
Qed.

Lemma encode_cp_scalar (c : N) :
  (c < 55296 \/ 57344 <= c)%N -> (c < 1114112)%N ->
  exists b, encode_cp c = Some b.
Proof.
  intros S R. unfold encode_cp.
  destruct (c <? 128)%N; [eauto|].
  destruct (c <? 2048)%N; [eauto|].
  destruct (N.leb_spec 55296 c), (N.ltb_spec c 57344); cbn [andb]; try lia;
    destruct (c <? 65536)%N; eauto;
    destruct (N.ltb_spec c 1114112); eauto; lia.
Qed.

Lemma encode_cons (c : N) (s : pystr) :
  (c < 55296 \/ 57344 <= c)%N -> (c < 1114112)%N ->
  (exists out, encode s = Some out) ->
  exists out, encode (c :: s) = Some out.
Proof.
  intros S R (out & E). destruct (encode_cp_scalar S R) as (b & Eb).
  simpl. rewrite Eb, E. eauto.
Qed.

Lemma to_N_lt_256 (x : byte) : (Byte.to_N x < 256)%N.
Proof. pose proof (Byte.to_N_bounded x). lia. Qed.

Lemma bad_second3_false (b0 b1 : N) :
  bad_second3 b0 b1 = false ->
  (128 <= b1 < 192)%N /\ (b0 = 224 -> 160 <= b1)%N /\ (b0 = 237 -> b1 < 160)%N.
Proof.
  unfold bad_second3. intros H. apply orb_false_iff in H as [C H].
  apply negb_false_iff, is_cont_true in C.
  destruct (N.ltb_spec b1 160); apply N.eqb_neq in H; lia.
Qed.

Lemma bad_second4_false (b0 b1 : N) :
  bad_second4 b0 b1 = false ->
  (128 <= b1 < 192)%N /\ (b0 = 240 -> 144 <= b1)%N /\ (b0 = 244 -> b1 < 144)%N.
Proof.
  unfold bad_second4. intros H. apply orb_false_iff in H as [C H].
  apply negb_false_iff, is_cont_true in C.
  destruct (N.ltb_spec b1 144); apply N.eqb_neq in H; lia.
Qed.

(** Whatever the bytes, the decoded text can be encoded again: decoding never
    yields a surrogate. *)
Lemma encode_decode_ignore_defined (bs : bytes) :
  exists out, encode (decode_ignore bs) = Some out.
Proof.
  assert (G : forall n bs, (List.length bs <= n)%nat ->
                           exists out, encode (decode_ignore bs) = Some out).
  { clear bs. induction n as [|n IH]; intros bs L.
    - destruct bs; [|simpl in L; lia]. simpl. eauto.
    - destruct bs as [|x0 r0]; [simpl; eauto|]. simpl in L.
      cbn [decode_ignore]. cbv zeta.
      pose proof (to_N_lt_256 x0) as B0.
      assert (I0 : exists out, encode (decode_ignore r0) = Some out)
        by (apply IH; lia).
      destruct (N.ltb_spec (to_N x0) 128); [apply encode_cons; auto; lia|].
      destruct (N.ltb_spec (to_N x0) 194); [assumption|].
      destruct (N.ltb_spec (to_N x0) 224).
      { destruct r0 as [|x1 r1]; [simpl; eauto|].
        destruct (is_cont (to_N x1)) eqn:C1; [|assumption].
        apply is_cont_true in C1. simpl in L.
        apply encode_cons; [unfold cp2; lia | unfold cp2; lia | apply IH; lia]. }
      destruct (N.ltb_spec (to_N x0) 240).
      { destruct r0 as [|x1 r1]; [simpl; eauto|].
        destruct (bad_second3 (to_N x0) (to_N x1)) eqn:C1; [assumption|].
        apply bad_second3_false in C1. simpl in L.
        destruct r1 as [|x2 r2]; [simpl; eauto|].
        destruct (is_cont (to_N x2)) eqn:C2; [|apply IH; simpl in *; lia].
        apply is_cont_true in C2. simpl in L.
        apply encode_cons; [unfold cp3; lia | unfold cp3; lia | apply IH; lia]. }
      destruct (N.ltb_spec (to_N x0) 245); [|assumption].
      destruct r0 as [|x1 r1]; [simpl; eauto|].
      destruct (bad_second4 (to_N x0) (to_N x1)) eqn:C1; [assumption|].
      apply bad_second4_false in C1. simpl in L.
      destruct r1 as [|x2 r2]; [simpl; eauto|].
      destruct (is_cont (to_N x2)) eqn:C2; cbn [negb];
        [|apply IH; simpl in *; lia].
      apply is_cont_true in C2. simpl in L.
      destruct r2 as [|x3 r3]; [simpl; eauto|].
      destruct (is_cont (to_N x3)) eqn:C3; [|apply IH; simpl in *; lia].
      apply is_cont_true in C3. simpl in L.
      apply encode_cons; [unfold cp4; lia | unfold cp4; lia | apply IH; lia]. }
  exact (G _ bs (le_n _)).
Qed.

Lemma encode_app (a b : pystr) (ea eb : bytes) :
  encode a = Some ea -> encode b = Some eb -> encode (a ++ b) = Some (ea ++ eb).
Proof.
  revert ea. induction a as [|c a IH]; simpl; intros ea.
  - now intros [= <-].
  - destruct (encode_cp c) as [bc|]; [|discriminate].
    destruct (encode a) as [ba|]; [|discriminate].
    intros [= <-] Eb. rewrite (IH _ eq_refl Eb). now rewrite app_assoc.
Qed.

Lemma encode_cp_not_scalar (c : N) :
  scalar_value c = false -> encode_cp c = None.
Proof.
  unfold scalar_value, encode_cp. intros H.
  apply orb_false_iff in H as [H1 H2]. apply N.ltb_ge in H1.
  destruct (N.ltb_spec c 128); [lia|].
  destruct (N.ltb_spec c 2048); [lia|].
  destruct (N.leb_spec 57344 c) as [G|G]; cbn [andb] in H2.
  - apply N.ltb_ge in H2.
    destruct (N.leb_spec 55296 c), (N.ltb_spec c 57344); cbn [andb]; try lia.
    destruct (N.ltb_spec c 65536); [lia|].
    destruct (N.ltb_spec c 1114112); [lia|reflexivity].
  - destruct (N.leb_spec 55296 c), (N.ltb_spec c 57344); cbn [andb]; try lia.
    reflexivity.
Qed.

Lemma encode_cp_is_scalar (c : N) :
  scalar_value c = true -> exists b, encode_cp c = Some b.
Proof.
  unfold scalar_value. intros H. apply orb_true_iff in H.
  apply encode_cp_scalar.
  - destruct H as [H|H]; [apply N.ltb_lt in H; lia|].
    apply andb_true_iff in H as [H _]. apply N.leb_le in H. lia.
  - destruct H as [H|H]; [apply N.ltb_lt in H; lia|].
    apply andb_true_iff in H as [_ H]. now apply N.ltb_lt in H.
Qed.

(** A text has a UTF-8 form exactly when all its characters are scalar
    values. *)
Lemma encode_scalars (s : pystr) :
  forallb scalar_value s = true -> exists out, encode s = Some out.
Proof.
  induction s as [|c s IH]; simpl; [eauto|].
  intros H. apply andb_true_iff in H as [Hc Hs].
  destruct (encode_cp_is_scalar _ Hc) as (b & ->).
  destruct (IH Hs) as (out & ->). eauto.
Qed.

Lemma encode_not_scalars (s : pystr) :
  forallb scalar_value s = false -> encode s = None.
Proof.
  induction s as [|c s IH]; simpl; [discriminate|].
  intros H. apply andb_false_iff in H as [Hc|Hs].
  - now rewrite (encode_cp_not_scalar _ Hc).
  - rewrite (IH Hs). now destruct (encode_cp c).
Qed.

Lemma forallb_scalar_line (s : pystr) :
  forallb scalar_value (s ++ [NL]) = forallb scalar_value s.
Proof. rewrite forallb_app. simpl. now rewrite andb_true_r. Qed.

(* ================================================================= *)
(** ** Dispatch: [on_command] and the built-in handlers *)

Lemma on_snd_fst A S (m : S -> outcome S) (st : A * S) :
  fst (final (on_snd m st)) = fst st.
Proof. unfold on_snd. now destruct (m (snd st)). Qed.

Lemma and_then_on_snd_fst A S (m1 m2 : S -> outcome S) (st : A * S) :
  fst (final (on_snd m1 st >>> on_snd m2)) = fst st.
Proof.
  unfold and_then. destruct (on_snd m1 st) as [s1|e s1] eqn:E1.
  - rewrite on_snd_fst.
    change s1 with (final (Normal s1)). rewrite <- E1. apply on_snd_fst.
  - change s1 with (final (Raise e s1)). rewrite <- E1. apply on_snd_fst.
Qed.

(** A built-in handler leaves [command] alone, however it ends. *)
Lemma call_builtin_command env (h : handler) (cmd_event : CommandEvent) (w : World) :
  builtin h = true ->
  command (fst (final (call env h (cmd_event, w)))) = command cmd_event.
Proof.
  destruct h; simpl; try discriminate; intros _.
  - destruct (stty_first_field env w); [reflexivity|].
    destruct (handlers (self w)); reflexivity.
  - unfold on_stop_command. now rewrite on_snd_fst.
  - unfold on_reload_command. now rewrite and_then_on_snd_fst.
Qed.

(** C1. For every CommandEvent that is not yet handled and whose token (the
    text before the first space) is not a key of the registry, [on_command]
    returns normally, sets [response] to the message
    ['Invalid command: <command>\nTry using "help" for a list of commands'],
    which names the command and points at the help token, and leaves
    [handled] false; the command and the rest of the state are untouched. *)
Theorem on_command_unknown_token
    (env : Environment) (cmd_event : CommandEvent) (w : World) (reg : registry) :
  handled cmd_event = false ->
  handlers (self w) = Obj reg ->
  ~ In (token cmd_event) (dict_keys reg) ->
  on_command env (cmd_event, w)
  = Normal ({| command := command cmd_event;
               response :=
                 Some (str "Invalid command: " ++ command cmd_event ++ [NL]
                       ++ str "Try using " ++ [DQUOTE] ++ str "help"
                       ++ [DQUOTE] ++ str " for a list of commands");
               handled := false |}, w).
Proof.
  intros Hh Hreg Hkey. unfold on_command. rewrite Hh, Hreg.
  apply dict_get_None in Hkey. rewrite Hkey.
  rewrite percent_s_invalid_command. unfold set_response. now rewrite Hh.
Qed.

Lemma on_command_unknown_token_witness :
  on_command quiet_env (CommandEvent_init (str "bogus arg"), running_world)
  = Normal ({| command := str "bogus arg";
               response :=
                 Some (str "Invalid command: bogus arg" ++ [NL]
                       ++ str "Try using " ++ [DQUOTE] ++ str "help"
                       ++ [DQUOTE] ++ str " for a list of commands");
               handled := false |}, running_world).
Proof.
  apply (@on_command_unknown_token quiet_env
           (CommandEvent_init (str "bogus arg")) running_world start_handlers).
  - reflexivity.
  - reflexivity.
  - vm_compute. intros [H|[H|[H|[]]]]; discriminate H.
Defined.

(** C2. For every CommandEvent whose [handled] flag is already true,
    [on_command] returns at once: the event (command, response, handled) and
    the whole state are exactly what they were, so no handler has run. *)
Theorem on_command_already_handled
    (env : Environment) (cmd_event : CommandEvent) (w : World) :
  handled cmd_event = true ->
  on_command env (cmd_event, w) = Normal (cmd_event, w).
Proof. intros H. unfold on_command. now rewrite H. Qed.

Lemma on_command_already_handled_witness :
  on_command sample_env
    ({| command := str "stop"; response := Some (str "vetoed"); handled := true |},
     running_world)
  = Normal
      ({| command := str "stop"; response := Some (str "vetoed"); handled := true |},
       running_world).
Proof.
  apply (@on_command_already_handled sample_env
           {| command := str "stop"; response := Some (str "vetoed");
              handled := true |} running_world).
  reflexivity.
Defined.

(** C10. For every CommandEvent, when the registry holds only the built-in
    help, stop and reload handlers, [on_command] leaves [command] equal to
    what it was before the call, whether it returns or raises. *)
Theorem on_command_preserves_command
    (env : Environment) (cmd_event : CommandEvent) (w : World) :
  builtin_registry (self w) ->
  command (fst (final (on_command env (cmd_event, w)))) = command cmd_event.
Proof.
  unfold builtin_registry, on_command. intros B.
  destruct (handled cmd_event); [reflexivity|].
  destruct (handlers (self w)) as [| |reg]; try reflexivity.
  destruct (dict_get reg (token cmd_event)) as [meta|] eqn:G; [|reflexivity].
  apply call_builtin_command.
  apply dict_get_In in G. rewrite Forall_forall in B.
  exact (B _ G).
Qed.

Lemma on_command_preserves_command_witness :
  command (fst (final (on_command sample_env
                         (CommandEvent_init (str "reload now"), running_world))))
  = str "reload now".
Proof.
  apply (@on_command_preserves_command sample_env
           (CommandEvent_init (str "reload now")) running_world).
  vm_compute. repeat constructor.
Defined.

(** [on_help_command] fills the table from the registry. *)
Lemma first_column_help_table (reg : registry) (width : Z) :
  first_column (help_table reg width) = dict_keys reg.
Proof.
  unfold first_column, help_table, help_rows, dict_keys. simpl.
  rewrite map_map. reflexivity.
Qed.

Lemma In_help_rows (reg : registry) (k d : pystr) :
  In [k; d] (help_rows reg) <-> exists h, In (k, (d, h)) reg.
Proof.
  unfold help_rows. rewrite in_map_iff. split.
  - intros ([k' [d' h]] & E & HIn). simpl in E. injection E as -> ->.
    now exists h.
  - intros (h & HIn). now exists (k, (d, h)).
Qed.

(** C3 (amended). For every registry of N commands, when [stty size] prints
    a leading integer, [on_help_command] sets [response] to the rendering of
    a two-column (Command, Description) table with one row per registered
    command: the first column is the N distinct registered names in the
    order in which the registry yields them (no sorting takes place), each
    row pairs a name with its registered description, and a second call on
    the unchanged state gives the identical result. *)
Theorem on_help_command_table
    (env : Environment) (cmd_event : CommandEvent) (w : World)
    (reg : registry) (width : Z) :
  handlers (self w) = Obj reg ->
  NoDup (dict_keys reg) ->
  stty_first_field env w = inr width ->
  let t := help_table reg width in
  let after := on_help_command env (cmd_event, w) in
  after = Normal (set_response cmd_event (Some (str_table env t)), w)
  /\ field_names t = [str "Command"; str "Description"]
  /\ List.length (rows t) = List.length reg
  /\ first_column t = dict_keys reg
  /\ NoDup (first_column t)
  /\ (forall k d, In [k; d] (rows t) <-> exists h, dict_get reg k = Some (d, h))
  /\ on_help_command env (final after) = after.
Proof.
  intros Hreg ND Hw t after.
  assert (A : after = Normal (set_response cmd_event (Some (str_table env t)), w)).
  { unfold after, on_help_command. now rewrite Hw, Hreg. }
  repeat split.
  - exact A.
  - unfold t, help_table, help_rows. simpl. apply length_map.
  - apply first_column_help_table.
  - unfold t. now rewrite first_column_help_table.
  - intros HIn. apply In_help_rows in HIn as (h & HIn).
    exists h. now apply In_dict_get.
  - intros (h & G). apply In_help_rows. exists h. now apply dict_get_In.
  - rewrite A. simpl. unfold on_help_command. now rewrite Hw, Hreg.
Qed.

Lemma on_help_command_table_witness :
  on_help_command quiet_env (CommandEvent_init (str "help"), running_world)
  = Normal
      (set_response (CommandEvent_init (str "help"))
         (Some (str "Command | Description" ++ [NL]
                ++ str "help | Show this help menu" ++ [NL]
                ++ str "stop | Stop NITE" ++ [NL]
                ++ str "reload | Reload NITE")),
       running_world).
Proof.
  refine (proj1 (@on_help_command_table quiet_env
                   (CommandEvent_init (str "help")) running_world
                   start_handlers 24 _ _ _)).
  - reflexivity.
  - vm_compute. repeat constructor; simpl; intuition discriminate.
  - reflexivity.
Defined.

(** C3 as worded fails twice on the registry that [start] builds: the rows
    come out as help, stop, reload, which is not sorted; and without a
    terminal the handler raises instead of answering. *)
Lemma on_help_command_not_sorted :
  first_column (help_table start_handlers 24)
  = [str "help"; str "stop"; str "reload"]
  /\ ascending (first_column (help_table start_handlers 24)) = false
  /\ on_help_command quiet_env (CommandEvent_init (str "help"), running_world)
     = Normal
         (set_response (CommandEvent_init (str "help"))
            (Some (plain_table (help_table start_handlers 24))),
          running_world)
  /\ on_help_command quiet_env
       (CommandEvent_init (str "help"), without_terminal running_world)
     = Raise IndexError
         (CommandEvent_init (str "help"), without_terminal running_world).
Proof. repeat split. Qed.

(* ================================================================= *)
(** ** The connection handler: [handle_read] *)

Lemma truthy_true (s : pystr) : truthy s = true <-> s <> [].
Proof. destruct s; simpl; split; congruence. Qed.

(** C4 (amended). For every chunk received, the chunk splits into a body
    that does not end in an ASCII whitespace byte and a tail of ASCII
    whitespace bytes; the CommandEvent handed to the event bus carries as
    command the body decoded as UTF-8 with invalid sequences ignored (the
    bytes are trimmed first, the text is not trimmed again); when that text
    is empty, as for every chunk of ASCII whitespace only, the bus is not
    called, the state is unchanged and nothing is sent. *)
Theorem handle_read_command
    (env : Environment) (chunk : bytes) (h : CommandHandler) (w : World) :
  exists body ws,
    chunk = body ++ ws
    /\ forallb bytes_isspace ws = true
    /\ (forall body' b, body = body' ++ [b] -> bytes_isspace b = false)
    /\ (decode_ignore body <> [] ->
        handle_read env chunk (h, w)
        = match events_handle env (CommandEvent_init (decode_ignore body), w) with
          | Normal (cmd_event, w') => reply h cmd_event w'
          | Raise e (_, w') => Raise e (h, w')
          end)
    /\ (decode_ignore body = [] ->
        handle_read env chunk (h, w) = Normal (h, w))
    /\ (forallb bytes_isspace chunk = true -> body = []).
Proof.
  destruct (bytes_rstrip_split chunk) as (ws & E & W).
  exists (bytes_rstrip chunk), ws. repeat split; try assumption.
  - intros body' b Hb. eapply bytes_rstrip_end. exact Hb.
  - intros NE. unfold handle_read. apply truthy_true in NE. rewrite NE.
    destruct (events_handle env _) as [[? ?]|? [? ?]]; reflexivity.
  - intros Em. unfold handle_read. now rewrite Em.
  - apply bytes_rstrip_whitespace.
Qed.

Lemma handle_read_command_witness :
  handle_read sample_env (lit "   " ++ [x0d; x0a]) (fresh_connection, running_world)
  = Normal (fresh_connection, running_world).
Proof.
  destruct (@handle_read_command sample_env (lit "   " ++ [x0d; x0a])
              fresh_connection running_world)
    as (body & ws & _ & _ & _ & _ & Hempty & Hws).
  apply Hempty. rewrite (Hws eq_refl). reflexivity.
Defined.

(** C4 as worded fails: an invalid byte after a space shields the space from
    [rstrip], so the command is "help " with its trailing space, not the
    decoded text trimmed of trailing whitespace; a bus that echoes the
    command sends the space back. *)
Lemma handle_read_command_not_trimmed :
  decode_ignore (bytes_rstrip (lit "help " ++ [xff])) = str "help "
  /\ decoded_then_trimmed (lit "help " ++ [xff]) = str "help"
  /\ handle_read echo_env (lit "help " ++ [xff]) (fresh_connection, running_world)
     = Normal (send fresh_connection (lit "help " ++ [x0a]), running_world).
Proof. repeat split. Qed.

(** C5 (amended). After the event bus has returned from a dispatched
    CommandEvent: when [response] is a non-empty string made of scalar values
    (no lone surrogate), exactly the UTF-8 encoding of the response followed
    by a line feed is handed to [send], after whatever was sent before; when
    [response] is a non-empty string that holds a surrogate, it has no UTF-8
    form, [UnicodeEncodeError] is raised and nothing is sent; when [response]
    is [None] or empty, nothing is sent. *)
Theorem handle_read_sends_response
    (env : Environment) (chunk : bytes) (h : CommandHandler) (w w' : World)
    (cmd_event : CommandEvent) :
  decode_ignore (bytes_rstrip chunk) <> [] ->
  events_handle env (CommandEvent_init (decode_ignore (bytes_rstrip chunk)), w)
  = Normal (cmd_event, w') ->
  match response cmd_event with
  | Some (c :: r) =>
      (forallb scalar_value (c :: r) = true ->
       exists payload,
         encode ((c :: r) ++ [NL]) = Some payload
         /\ handle_read env chunk (h, w)
            = Normal ({| client_address := client_address h;
                         out_buffer := out_buffer h ++ payload |}, w'))
      /\ (forallb scalar_value (c :: r) = false ->
          handle_read env chunk (h, w) = Raise UnicodeEncodeError (h, w'))
  | Some [] | None => handle_read env chunk (h, w) = Normal (h, w')
  end.
Proof.
  intros NE Hbus. unfold handle_read. apply truthy_true in NE.
  rewrite NE, Hbus. unfold reply.
  destruct (response cmd_event) as [[|c r]|]; try reflexivity.
  cbn [truthy]. split; intros S.
  - rewrite <- forallb_scalar_line in S.
    destruct (encode_scalars _ S) as (payload & E).
    exists payload. split; [exact E|]. now rewrite E.
  - rewrite <- forallb_scalar_line in S.
    now rewrite (encode_not_scalars _ S).
Qed.

Lemma handle_read_sends_response_witness :
  exists payload,
    encode ((str "Invalid command: bogus" ++ [NL]
             ++ str "Try using " ++ [DQUOTE] ++ str "help"
             ++ [DQUOTE] ++ str " for a list of commands") ++ [NL])
    = Some payload
    /\ handle_read sample_env (lit "bogus" ++ [x0a])
         (fresh_connection, running_world)
       = Normal
           ({| client_address := str "Unknown";
               out_buffer := [] ++ payload |}, running_world).
Proof.
  refine (proj1 (@handle_read_sends_response sample_env (lit "bogus" ++ [x0a])
                   fresh_connection running_world running_world
                   {| command := str "bogus";
                      response :=
                        Some (str "Invalid command: bogus" ++ [NL]
                              ++ str "Try using " ++ [DQUOTE] ++ str "help"
                              ++ [DQUOTE] ++ str " for a list of commands");
                      handled := false |} _ _) _).
  - vm_compute. discriminate.
  - reflexivity.
  - reflexivity.
Defined.

(** C5 as worded fails: a listener may leave a non-empty response that holds
    a lone surrogate; [encode('UTF8')] then raises and nothing is sent. *)
Lemma handle_read_lone_surrogate :
  events_handle surrogate_env (CommandEvent_init (str "x"), running_world)
  = Normal ({| command := str "x"; response := Some [55296%N];
               handled := false |}, running_world)
  /\ handle_read surrogate_env (lit "x" ++ [x0a])
       (fresh_connection, running_world)
     = Raise UnicodeEncodeError (fresh_connection, running_world).
Proof. split; reflexivity. Qed.

(* ================================================================= *)
(** ** The listening server: [CommandServer.__init__] *)

Lemma socket_family_unix (addr : pystr) :
  contains COLON addr = false -> socket_family addr = AF_UNIX.
Proof.
  intros H. unfold socket_family. now rewrite (split_on_no_sep _ _ H).
Qed.

Lemma socket_family_inet (addr : pystr) :
  contains COLON addr = true -> socket_family addr = AF_INET.
Proof.
  intros H. unfold socket_family.
  pose proof (split_on_sep_length _ _ H) as L.
  destruct (split_on COLON addr) as [|p [|q l]]; simpl in L; try lia.
  reflexivity.
Qed.

Ltac trace_cases :=
  repeat match goal with
         | |- context [sys_error ?env ?c] =>
             let e := fresh "e" in
             destruct (sys_error env c) as [e|]
         | |- context [match ?e with OSError => _ | _ => _ end] =>
             is_var e; destruct e
         end.

Ltac trace_list :=
  cbn [final raised trace emit and_then debug]; rewrite <- ?app_assoc;
  cbn [app].

(** C6. For every bind address: without a colon the constructor creates a
    Unix-domain stream socket and binds it to the whole address as a path;
    with a colon it creates a TCP stream socket and binds it to the pair of
    the text before the last colon and the integer read from the text after
    the last colon.  The socket of that family is what the constructor
    creates first; [bind] is called with exactly these arguments, and it is
    called exactly when the steps before it succeed (the socket could be
    created, and the stale file could be removed or its removal failed with
    [OSError] for a path, the port could be read for a TCP address); so a
    constructor that returns has bound the socket that way. *)
Theorem CommandServer_socket_selection
    (env : Environment) (addr : pystr) (backlog : Z) (w : World) :
  let o := CommandServer_init env addr backlog w in
  (contains COLON addr = false ->
   socket_family addr = AF_UNIX
   /\ exists rest,
       trace (final o)
       = trace w ++ Sys (create_socket AF_UNIX SOCK_STREAM) :: rest
       /\ (forall a,
              In (Sys (sock_bind a)) rest
              <-> a = PathAddr addr
                  /\ sys_error env (create_socket AF_UNIX SOCK_STREAM) = None
                  /\ (sys_error env (os_remove addr) = None
                      \/ sys_error env (os_remove addr) = Some OSError))
       /\ (raised o = None -> In (Sys (sock_bind (PathAddr addr))) rest))
  /\ (contains COLON addr = true ->
      socket_family addr = AF_INET
      /\ exists host tail rest,
          addr = host ++ COLON :: tail
          /\ contains COLON tail = false
          /\ trace (final o)
             = trace w ++ Sys (create_socket AF_INET SOCK_STREAM) :: rest
          /\ (forall a,
                 In (Sys (sock_bind a)) rest
                 <-> sys_error env (create_socket AF_INET SOCK_STREAM) = None
                     /\ exists port,
                         py_int env tail = Some port /\ a = HostPort host port)
          /\ (raised o = None ->
              exists port, py_int env tail = Some port
                           /\ In (Sys (sock_bind (HostPort host port))) rest)).
Proof.
  intros o. split; intros HC.
  - split; [now apply socket_family_unix|].
    subst o. unfold CommandServer_init.
    rewrite (socket_family_unix _ HC).
    unfold bind_and_listen, remove_stale_socket, os_call.
    trace_cases; trace_list; eexists; (split; [reflexivity|]);
      (split;
       [ intros a; cbn [In]; split;
         [ intros HIn; intuition (try discriminate; try congruence)
         | intros (-> & Hc & [Hr|Hr]);
           try discriminate Hc; try discriminate Hr; auto 10 ]
       | intros Hr; cbn [In]; clear -Hr; first [ discriminate Hr | tauto ] ]).
  - split; [now apply socket_family_inet|].
    destruct (split_on_last COLON addr HC) as [E NC].
    exists (join [COLON] (removelast (split_on COLON addr))),
           (last (split_on COLON addr) []).
    subst o. unfold CommandServer_init.
    rewrite (socket_family_inet _ HC).
    unfold inet_bind_args, bind_and_listen, os_call.
    set (host := join [COLON] (removelast (split_on COLON addr))) in *.
    set (tail := last (split_on COLON addr) []) in *.
    destruct (py_int env tail) as [port|].
    + trace_cases; trace_list; eexists; (split; [exact E|]);
        (split; [exact NC|]); (split; [reflexivity|]);
        (split;
         [ intros a; cbn [In]; split;
           [ intros HIn; (split; [intuition discriminate|]); exists port;
             intuition (try discriminate; try congruence)
           | intros (Hc & p & Hp & ->); try discriminate Hc;
             injection Hp as <-; auto 10 ]
         | intros Hr; try discriminate Hr; exists port; cbn [In]; tauto ]).
    + trace_cases; trace_list; eexists; (split; [exact E|]);
        (split; [exact NC|]); (split; [reflexivity|]);
        (split;
         [ intros a; cbn [In]; split;
           [ intros HIn; intuition discriminate
           | intros (_ & p & Hp & _); discriminate Hp ]
         | intros Hr; discriminate Hr ]).
Qed.

Lemma CommandServer_socket_selection_witness :
  In (Sys (sock_bind (PathAddr (str "/tmp/nite.sock"))))
     (trace (final (CommandServer_init quiet_env (str "/tmp/nite.sock") 5
                      (fresh_world []))))
  /\ In (Sys (sock_bind (HostPort (str "localhost") 8080)))
        (trace (final (CommandServer_init quiet_env (str "localhost:8080") 5
                         (fresh_world [])))).
Proof.
  split.
  - destruct (proj1 (@CommandServer_socket_selection quiet_env
                       (str "/tmp/nite.sock") 5 (fresh_world [])) eq_refl)
      as (_ & rest & T & B & _).
    rewrite T. apply in_or_app. right. right.
    apply B. repeat split. now left.
  - destruct (proj2 (@CommandServer_socket_selection quiet_env
                       (str "localhost:8080") 5 (fresh_world [])) eq_refl)
      as (_ & host & tail & rest & E & NC & T & B & _).
    destruct (@last_sep_unique COLON (str "localhost") (str "8080") host tail
                E eq_refl NC) as [<- <-].
    rewrite T. apply in_or_app. right. right.
    apply B. split; [reflexivity|]. exists 8080%Z. split; reflexivity.
Defined.

Example CommandServer_init_unix :
  trace (final (CommandServer_init quiet_env (str "/tmp/nite.sock") 5
                  (fresh_world [])))
  = [ Sys (create_socket AF_UNIX SOCK_STREAM);
      Sys set_reuse_addr;
      Sys (os_remove (str "/tmp/nite.sock"));
      Debug (str "Removed stale socket file " ++ [DQUOTE] ++ str "%s" ++ [DQUOTE])
            [PStr (str "/tmp/nite.sock")];
      Debug (str "Binding socket to " ++ [DQUOTE] ++ str "%s" ++ [DQUOTE])
            [PStr (str "/tmp/nite.sock")];
      Sys (sock_bind (PathAddr (str "/tmp/nite.sock")));
      Debug (str "Setting socket listen backlog to " ++ [DQUOTE] ++ str "%s" ++ [DQUOTE])
            [PInt 5];
      Sys (sock_listen 5) ].
Proof. reflexivity. Qed.

Example CommandServer_init_tcp :
  trace (final (CommandServer_init quiet_env (str "::1:9000") 5 (fresh_world [])))
  = [ Sys (create_socket AF_INET SOCK_STREAM);
      Sys set_reuse_addr;
      Debug (str "Binding socket to " ++ [DQUOTE] ++ str "%s" ++ [DQUOTE])
            [PStr (str "::1:9000")];
      Sys (sock_bind (HostPort (str "::1") 9000));
      Debug (str "Setting socket listen backlog to " ++ [DQUOTE] ++ str "%s" ++ [DQUOTE])
            [PInt 5];
      Sys (sock_listen 5) ].
Proof. reflexivity. Qed.

(* ================================================================= *)
(** ** The controller: [start] and [stop] *)

(** With a bind address configured and a readable backlog, [start] leaves a
    thread object and an unset termination event behind. *)
Lemma start_creates_thread (env : Environment) (w : World) (backlog : Z) :
  configured_bind_address w <> [] ->
  py_int env (configured_listen_backlog w) = Some backlog ->
  exists w',
    start env w = Normal w'
    /\ thread (self w')
       = Obj {| kw_bind_address := configured_bind_address w;
                kw_listen_backlog := backlog |}
    /\ terminate (self w') = Obj {| is_set := false |}
    /\ handlers (self w') = Obj start_handlers.
Proof.
  unfold configured_bind_address, configured_listen_backlog, start.
  intros NE Hb. cbn [config with_self]. rewrite Hb.
  apply truthy_true in NE. rewrite NE.
  eexists. split; [reflexivity|]. repeat split.
Qed.

(** C7. Whenever a background thread exists, as after [start] ran with a
    bind address configured, [stop] returns normally with the termination
    event set; it logs one debug line and does nothing else: no join, and
    every other attribute of the controller and the rest of the state keep
    their values. *)
Theorem stop_sets_terminate (w : World) (t : Thread) (ev : ThreadingEvent) :
  thread (self w) = Obj t ->
  terminate (self w) = Obj ev ->
  stop w
  = Normal
      {| self := {| handlers := handlers (self w);
                    server := server (self w);
                    thread := Obj t;
                    terminate := Obj {| is_set := true |} |};
         config := config w;
         listeners := listeners w;
         tty := tty w;
         trace := trace w
                  ++ [Debug (str "Attempting to terminate the command server thread") []] |}.
Proof.
  intros Ht He. unfold stop. rewrite Ht. cbn [emit self]. rewrite He.
  unfold with_self. cbn. now rewrite Ht.
Qed.

Lemma stop_sets_terminate_witness :
  exists w, stop running_world = Normal w
            /\ terminate (self w) = Obj {| is_set := true |}.
Proof.
  eexists. split.
  - apply (@stop_sets_terminate running_world
             {| kw_bind_address := str "/tmp/nite.sock"; kw_listen_backlog := 5 |}
             {| is_set := false |}); reflexivity.
  - reflexivity.
Defined.

(** C8 (amended). When the configured bind address is empty, [start] never
    starts the server: the thread and the termination event are left as they
    were and no thread is started.  The dispatch operation is registered as a
    lowest-priority listener for CommandEvent whenever [start] returns,
    whether a bind address is configured or not. *)
Theorem start_registers_listener (env : Environment) (w : World) :
  (configured_bind_address w = [] ->
   thread (self (final (start env w))) = thread (self w)
   /\ terminate (self (final (start env w))) = terminate (self w)
   /\ trace (final (start env w)) = trace w)
  /\ (forall w', start env w = Normal w' ->
      listeners w'
      = listeners w
        ++ [{| reg_kind := CommandEvent_class;
               reg_listener := StdCmd_on_command;
               reg_priority := LOWEST |}])
  /\ (forall backlog, py_int env (configured_listen_backlog w) = Some backlog ->
      exists w', start env w = Normal w').
Proof.
  unfold configured_bind_address, configured_listen_backlog, start.
  cbn [config with_self].
  destruct (py_int env _) as [n|]; (split; [|split]).
  - intros ->. repeat split.
  - intros w' [= <-]. destruct (truthy _); reflexivity.
  - intros _ _. eexists. reflexivity.
  - intros _. repeat split.
  - intros w' [=].
  - intros backlog [=].
Qed.

Lemma start_registers_listener_witness :
  exists w',
    start quiet_env (fresh_world [(bind_address_key, str "127.0.0.1:7000")])
    = Normal w'
    /\ listeners w' = [on_command_registration].
Proof.
  destruct (@start_registers_listener quiet_env
              (fresh_world [(bind_address_key, str "127.0.0.1:7000")]))
    as (_ & Hreg & Hret).
  destruct (Hret 5%Z eq_refl) as (w' & Hw').
  exists w'. split; [exact Hw'|]. exact (Hreg w' Hw').
Defined.

(** C8 as worded fails: with the bind address configured as the empty string
    no thread is made, yet [on_command] is registered all the same. *)
Lemma start_registers_without_bind_address :
  configured_bind_address (fresh_world [(bind_address_key, [])]) = []
  /\ exists w',
      start quiet_env (fresh_world [(bind_address_key, [])]) = Normal w'
      /\ thread (self w') = Missing
      /\ terminate (self w') = Missing
      /\ listeners w' = [on_command_registration].
Proof. split; [reflexivity|]. eexists. repeat split. Qed.

(** C9: on a controller that [start] never touched, [thread] is not [None]:
    the attribute does not exist, and the guard of [stop] raises
    [AttributeError] when it reads it.  The same holds after a [start] that
    found an empty bind address. *)
Theorem stop_before_start_raises :
  thread StdCmd_new = Missing
  /\ (forall cfg, stop (fresh_world cfg) = Raise AttributeError (fresh_world cfg))
  /\ (forall w, thread (self w) = Missing -> stop w = Raise AttributeError w)
  /\ raised (start quiet_env (fresh_world [(bind_address_key, [])]) >>> stop)
     = Some AttributeError.
Proof.
  repeat split.
  intros w H. unfold stop. now rewrite H.
Qed.

(** Had the attribute been initialised to [None], [stop] would have been the
    no-op that the guard is written for. *)
Lemma stop_thread_None (w : World) :
  thread (self w) = PyNone -> stop w = Normal w.
Proof. intros H. unfold stop. now rewrite H. Qed.

(* ================================================================= *)
(** ** End to end: an unknown command over the wire *)

(** X16. When the bus delivers the event to [on_command] and the token is
    not registered, the peer always gets the error line back: the command
    came out of the decoder, so the answer can be encoded. *)
Lemma handle_read_unknown_command
    (bus env : Environment) (chunk : bytes) (h : CommandHandler) (w : World)
    (reg : registry) :
  (forall st, events_handle bus st = on_command env st) ->
  handlers (self w) = Obj reg ->
  decode_ignore (bytes_rstrip chunk) <> [] ->
  ~ In (token (CommandEvent_init (decode_ignore (bytes_rstrip chunk))))
       (dict_keys reg) ->
  exists text,
    encode (decode_ignore (bytes_rstrip chunk)) = Some text
    /\ handle_read bus chunk (h, w)
       = Normal
           (send h (lit "Invalid command: " ++ text ++ [x0a]
                    ++ lit "Try using " ++ [x22] ++ lit "help" ++ [x22]
                    ++ lit " for a list of commands" ++ [x0a]), w).
Proof.
  intros Hbus Hreg NE Hkey.
  destruct (encode_decode_ignore_defined (bytes_rstrip chunk)) as (text & Et).
  exists text. split; [exact Et|].
  unfold handle_read. apply truthy_true in NE. rewrite NE, Hbus.
  unfold on_command. cbn [handled CommandEvent_init]. rewrite Hreg.
  apply dict_get_None in Hkey. rewrite Hkey.
  unfold reply. cbn [response set_response command CommandEvent_init].
  rewrite percent_s_invalid_command. cbn [truthy str app map list_ascii_of_string].
  assert (E : encode ((str "Invalid command: "
                       ++ decode_ignore (bytes_rstrip chunk) ++ [NL]
                       ++ str "Try using " ++ [DQUOTE] ++ str "help"
                       ++ [DQUOTE] ++ str " for a list of commands") ++ [NL])
              = Some (lit "Invalid command: " ++ text ++ [x0a]
                      ++ lit "Try using " ++ [x22] ++ lit "help" ++ [x22]
                      ++ lit " for a list of commands" ++ [x0a])).
  { rewrite <- !app_assoc.
    apply encode_app; [reflexivity|].
    apply encode_app; [exact Et|]. reflexivity. }
  cbn [str app map list_ascii_of_string] in E. rewrite E. reflexivity.
Qed.

(* ================================================================= *)
(** ** More on dispatch *)

Lemma split_on_hd (sep : N) (s : pystr) :
  exists rest,
    s = hd [] (split_on sep s) ++ rest
    /\ contains sep (hd [] (split_on sep s)) = false
    /\ (rest = [] \/ exists args, rest = sep :: args).
Proof.
  induction s as [|c s (rest & E & NC & R)]; simpl.
  - exists []. auto.
  - destruct (c =? sep)%N eqn:Ec.
    + apply N.eqb_eq in Ec. subst c. exists (sep :: s). simpl. eauto.
    + destruct (split_on sep s) as [|p ps] eqn:Sp.
      * now destruct (split_on_nonempty sep s).
      * simpl in *. exists rest. repeat split.
        -- now f_equal.
        -- unfold contains in *. simpl. now rewrite N.eqb_sym, Ec.
        -- assumption.
Qed.

Lemma split_on_hd_app (sep : N) (tok args : pystr) :
  contains sep tok = false ->
  hd [] (split_on sep (tok ++ sep :: args)) = tok.
Proof.
  unfold contains. induction tok as [|c tok IH]; simpl.
  - now rewrite N.eqb_refl.
  - intros H. apply orb_false_iff in H as [Hc Ht].
    rewrite N.eqb_sym, Hc. specialize (IH Ht).
    destruct (split_on sep (tok ++ sep :: args)); simpl in *; now subst.
Qed.

(** X1. The token of a command is the text in front of its first space and
    nothing else splits it: every command is its token, alone or followed by
    a space and arguments; and a text without space is the token of itself
    and of itself followed by a space and anything. *)
Theorem token_first_space :
  (forall cmd_event, exists rest,
      command cmd_event = token cmd_event ++ rest
      /\ contains SPACE (token cmd_event) = false
      /\ (rest = [] \/ exists args, rest = SPACE :: args))
  /\ (forall tok args,
        contains SPACE tok = false ->
        token (CommandEvent_init tok) = tok
        /\ token (CommandEvent_init (tok ++ SPACE :: args)) = tok).
Proof.
  split.
  - intros cmd_event. apply split_on_hd.
  - intros tok args H. unfold token. cbn [command CommandEvent_init]. split.
    + now rewrite (split_on_no_sep _ _ H).
    + now apply split_on_hd_app.
Qed.

Lemma token_first_space_witness :
  token (CommandEvent_init (str "help" ++ [9%N] ++ str "me now")) = str "help" ++ [9%N] ++ str "me".
Proof.
  refine (proj2 (proj2 token_first_space (str "help" ++ [9%N] ++ str "me")
                   (str "now") _)).
  reflexivity.
Defined.

Lemma call_builtin_handled env (h : handler) (cmd_event : CommandEvent) (w : World) :
  builtin h = true ->
  handled (fst (final (call env h (cmd_event, w)))) = handled cmd_event.
Proof.
  destruct h; simpl; try discriminate; intros _.
  - destruct (stty_first_field env w); [reflexivity|].
    destruct (handlers (self w)); reflexivity.
  - unfold on_stop_command. now rewrite on_snd_fst.
  - unfold on_reload_command. now rewrite and_then_on_snd_fst.
Qed.

(** X2. With a registry of built-in handlers, [on_command] never changes the
    [handled] flag: not when the token is unknown, not when help, stop or
    reload runs, not when the call raises. *)
Theorem on_command_preserves_handled
    (env : Environment) (cmd_event : CommandEvent) (w : World) :
  builtin_registry (self w) ->
  handled (fst (final (on_command env (cmd_event, w)))) = handled cmd_event.
Proof.
  unfold builtin_registry, on_command. intros B.
  destruct (handled cmd_event) eqn:Hh; [simpl; exact Hh|].
  destruct (handlers (self w)) as [| |reg]; try (simpl; exact Hh).
  destruct (dict_get reg (token cmd_event)) as [meta|] eqn:G; [|simpl; exact Hh].
  rewrite call_builtin_handled; [exact Hh|].
  apply dict_get_In in G. rewrite Forall_forall in B. exact (B _ G).
Qed.

Lemma on_command_preserves_handled_witness :
  handled (fst (final (on_command sample_env
                         (CommandEvent_init (str "help"), running_world))))
  = false.
Proof.
  apply (@on_command_preserves_handled sample_env
           (CommandEvent_init (str "help")) running_world).
  vm_compute. repeat constructor.
Defined.

(* ================================================================= *)
(** ** More on the connection handler *)

Lemma bytes_rstrip_app_space (body ws : bytes) :
  forallb bytes_isspace ws = true ->
  bytes_rstrip (body ++ ws) = bytes_rstrip body.
Proof.
  intros W. induction body as [|b body IH]; simpl.
  - now apply bytes_rstrip_whitespace.
  - now rewrite IH.
Qed.

Lemma bytes_rstrip_fix (body : bytes) (b : byte) :
  bytes_isspace b = false -> bytes_rstrip (body ++ [b]) = body ++ [b].
Proof.
  intros B. induction body as [|c body IH]; simpl.
  - now rewrite B.
  - rewrite IH. destruct (body ++ [b]) eqn:E; [|reflexivity].
    now destruct body.
Qed.

Lemma encode_app_inv (a b : pystr) (out : bytes) :
  encode (a ++ b) = Some out ->
  exists ea eb, encode a = Some ea /\ encode b = Some eb /\ out = ea ++ eb.
Proof.
  revert out. induction a as [|c a IH]; simpl; intros out E.
  - exists [], out. auto.
  - destruct (encode_cp c) as [bc|]; [|discriminate].
    destruct (encode (a ++ b)) as [r|] eqn:Er; [|discriminate].
    destruct (IH _ eq_refl) as (ea & eb & -> & Eb & ->).
    exists (bc ++ ea), eb. injection E as <-.
    now rewrite app_assoc.
Qed.

(** The last byte of an encoded character is whitespace only for an ASCII
    whitespace character. *)
Lemma encode_cp_last (c : N) (bc : bytes) :
  encode_cp c = Some bc -> ascii_space c = false ->
  exists pre b, bc = pre ++ [b] /\ bytes_isspace b = false.
Proof.
  unfold encode_cp. intros E A.
  pose proof (N.mod_lt c 64 ltac:(lia)) as M0. revert M0 E.
  generalize (c mod 64)%N. intros r0 M0 E.
  assert (T : bytes_isspace (byte_of (128 + r0)) = false).
  { unfold bytes_isspace. cbv zeta. rewrite to_N_byte_of by lia.
    ltb_cases; reflexivity. }
  destruct (N.ltb_spec c 128).
  { apply some_inj in E. subst bc. exists [], (byte_of c). split; [reflexivity|].
    unfold bytes_isspace. cbv zeta. rewrite to_N_byte_of by lia. exact A. }
  destruct (c <? 2048)%N.
  { apply some_inj in E. subst bc. now exists [byte_of (192 + c / 64)], (byte_of (128 + r0)). }
  destruct ((55296 <=? c) && (c <? 57344))%N; [discriminate|].
  destruct (c <? 65536)%N.
  { apply some_inj in E. subst bc.
    now exists [byte_of (224 + c / 4096); byte_of (128 + (c / 64) mod 64)],
               (byte_of (128 + r0)). }
  destruct (c <? 1114112)%N; [|discriminate].
  apply some_inj in E. subst bc.
  now exists [byte_of (240 + c / 262144); byte_of (128 + (c / 4096) mod 64);
              byte_of (128 + (c / 64) mod 64)], (byte_of (128 + r0)).
Qed.

(** Encoded text followed by ASCII whitespace is read back as the text. *)
Lemma decode_rstrip_encoded (text : pystr) (c : N) (body ws : bytes) :
  encode (text ++ [c]) = Some body ->
  ascii_space c = false ->
  forallb bytes_isspace ws = true ->
  decode_ignore (bytes_rstrip (body ++ ws)) = text ++ [c].
Proof.
  intros E A W.
  rewrite (bytes_rstrip_app_space _ _ W).
  destruct (encode_app_inv _ _ E) as (et & ec & Et & Ec & ->).
  simpl in Ec. destruct (encode_cp c) as [bc|] eqn:Ecp; [|discriminate].
  injection Ec as <-. rewrite app_nil_r in *.
  destruct (encode_cp_last _ Ecp A) as (pre & b & -> & B).
  rewrite app_assoc, (bytes_rstrip_fix _ _ B), <- app_assoc.
  apply decode_encode. exact E.
Qed.

(** X3. When a client sends the UTF-8 encoding of a text that does not end
    in an ASCII whitespace character, followed by any run of ASCII
    whitespace (such as the line end), the CommandEvent handed to the bus
    carries exactly that text. *)
Theorem handle_read_wellformed_text
    (env : Environment) (text : pystr) (c : N) (body ws : bytes)
    (h : CommandHandler) (w : World) :
  encode (text ++ [c]) = Some body ->
  ascii_space c = false ->
  forallb bytes_isspace ws = true ->
  decode_ignore (bytes_rstrip (body ++ ws)) = text ++ [c]
  /\ handle_read env (body ++ ws) (h, w)
     = match events_handle env (CommandEvent_init (text ++ [c]), w) with
       | Normal (cmd_event, w') => reply h cmd_event w'
       | Raise e (_, w') => Raise e (h, w')
       end.
Proof.
  intros E A W.
  pose proof (decode_rstrip_encoded _ _ ws E A W) as D.
  split; [exact D|].
  unfold handle_read. rewrite D.
  destruct (text ++ [c]) eqn:T; [now destruct text|].
  cbn [truthy].
  destruct (events_handle env _) as [[? ?]|? [? ?]]; reflexivity.
Qed.

Lemma handle_read_wellformed_text_witness :
  decode_ignore
    (bytes_rstrip ([x73; x74; x6f; x70; x20; xe2; x82; xac] ++ [x20; x0d; x0a]))
  = str "stop" ++ [32; 8364]%N.
Proof.
  refine (proj1 (@handle_read_wellformed_text quiet_env (str "stop ") 8364%N
                   [x73; x74; x6f; x70; x20; xe2; x82; xac] [x20; x0d; x0a]
                   fresh_connection running_world _ _ _));
    reflexivity.
Defined.

(** X5. A stop or reload command gets no reply: when the bus delivers the
    event to [on_command] and the token is registered for the stop or the
    reload handler, the connection is exactly as before, whether the host
    call returns or raises. *)
Theorem handle_read_stop_reload_silent
    (bus env : Environment) (chunk : bytes) (h : CommandHandler) (w : World)
    (reg : registry) (description : pystr) (callee : handler) :
  (forall st, events_handle bus st = on_command env st) ->
  handlers (self w) = Obj reg ->
  dict_get reg (token (CommandEvent_init (decode_ignore (bytes_rstrip chunk))))
  = Some (description, callee) ->
  callee = OnStopCommand \/ callee = OnReloadCommand ->
  fst (final (handle_read bus chunk (h, w))) = h.
Proof.
  intros Hbus Hreg G Hc. unfold handle_read.
  destruct (truthy _); [|reflexivity].
  rewrite Hbus. unfold on_command. cbn [handled CommandEvent_init].
  rewrite Hreg. cbn [command] in G |- *. unfold token in G |- *.
  cbn [command] in G |- *. rewrite G. cbn [snd].
  destruct Hc as [-> | ->]; cbn [call].
  - unfold on_stop_command, on_snd. cbn [fst snd].
    destruct (NITE_stop env w); reflexivity.
  - unfold on_reload_command, on_snd, and_then. cbn [fst snd].
    destruct (NITE_stop env w) as [w1|e w1]; [|reflexivity].
    cbn [fst snd]. destruct (NITE_start env w1); reflexivity.
Qed.

Lemma handle_read_stop_reload_silent_witness :
  fst (final (handle_read sample_env (lit "reload" ++ [x0a])
                (fresh_connection, running_world)))
  = fresh_connection.
Proof.
  apply (@handle_read_stop_reload_silent sample_env quiet_env
           (lit "reload" ++ [x0a]) fresh_connection running_world
           start_handlers (str "Reload NITE") OnReloadCommand).
  - intros st. reflexivity.
  - reflexivity.
  - reflexivity.
  - now right.
Defined.

Lemma split_ws_blank (s : pystr) :
  forallb isspace s = true -> split_ws s = [].
Proof.
  induction s as [|c s IH]; simpl; [reflexivity|].
  intros H. apply andb_true_iff in H as [Hc Hs]. rewrite Hc. auto.
Qed.

(** X6. A help command fails where there is no terminal: when [stty size]
    prints nothing but whitespace, the bus delivers the event to
    [on_command] and the token is registered for the help handler,
    [handle_read] raises [IndexError]; nothing is sent and nothing
    changes. *)
Theorem handle_read_help_without_terminal
    (bus env : Environment) (chunk : bytes) (h : CommandHandler) (w : World)
    (reg : registry) (description : pystr) :
  (forall st, events_handle bus st = on_command env st) ->
  handlers (self w) = Obj reg ->
  decode_ignore (bytes_rstrip chunk) <> [] ->
  dict_get reg (token (CommandEvent_init (decode_ignore (bytes_rstrip chunk))))
  = Some (description, OnHelpCommand) ->
  forallb isspace (tty w) = true ->
  handle_read bus chunk (h, w) = Raise IndexError (h, w).
Proof.
  intros Hbus Hreg NE G Htty. unfold handle_read.
  apply truthy_true in NE. rewrite NE, Hbus.
  unfold on_command. cbn [handled CommandEvent_init]. rewrite Hreg.
  unfold token in G |- *. cbn [command] in G |- *. rewrite G. cbn [snd call].
  unfold on_help_command, stty_first_field.
  now rewrite (split_ws_blank _ Htty).
Qed.

Lemma handle_read_help_without_terminal_witness :
  handle_read sample_env (lit "help" ++ [x0a])
    (fresh_connection, without_terminal running_world)
  = Raise IndexError (fresh_connection, without_terminal running_world).
Proof.
  apply (@handle_read_help_without_terminal sample_env quiet_env
           (lit "help" ++ [x0a]) fresh_connection
           (without_terminal running_world) start_handlers
           (str "Show this help menu")).
  - intros st. reflexivity.
  - reflexivity.
  - vm_compute. discriminate.
  - reflexivity.
  - reflexivity.
Defined.

Lemma handle_read_unknown_command_witness :
  exists text,
    encode (decode_ignore (bytes_rstrip (lit "bogus " ++ [xff; x0a]))) = Some text
    /\ handle_read sample_env (lit "bogus " ++ [xff; x0a])
         (fresh_connection, running_world)
       = Normal
           (send fresh_connection
              (lit "Invalid command: " ++ text ++ [x0a]
               ++ lit "Try using " ++ [x22] ++ lit "help" ++ [x22]
               ++ lit " for a list of commands" ++ [x0a]), running_world).
Proof.
  apply (@handle_read_unknown_command sample_env quiet_env
           (lit "bogus " ++ [xff; x0a]) fresh_connection running_world
           start_handlers).
  - intros st. reflexivity.
  - reflexivity.
  - vm_compute. discriminate.
  - vm_compute. intros [H|[H|[H|[]]]]; discriminate H.
Defined.

(* ================================================================= *)
(** ** More on the listening server *)

(** X7. The constructor returns exactly when every step it takes succeeds:
    the socket can be created; for a Unix address the removal of the stale
    file succeeds or fails with [OSError] (which is swallowed), while any
    other failure of the removal is fatal; the bind arguments can be formed
    (the port is an integer); and both [bind] and [listen] succeed. *)
Theorem CommandServer_init_returns
    (env : Environment) (addr : pystr) (backlog : Z) (w : World) :
  raised (CommandServer_init env addr backlog w) = None
  <-> sys_error env (create_socket (socket_family addr) SOCK_STREAM) = None
      /\ (socket_family addr = AF_UNIX ->
          sys_error env (os_remove addr) = None
          \/ sys_error env (os_remove addr) = Some OSError)
      /\ exists args,
          chosen_bind_args env addr = inr args
          /\ sys_error env (sock_bind args) = None
          /\ sys_error env (sock_listen backlog) = None.
Proof.
  unfold CommandServer_init, chosen_bind_args, bind_and_listen,
    remove_stale_socket, os_call, inet_bind_args, debug.
  destruct (socket_family addr) eqn:F.
  - destruct (sys_error env (create_socket AF_UNIX SOCK_STREAM)) eqn:Ec,
             (sys_error env (os_remove addr)) as [[]|] eqn:Er,
             (sys_error env (sock_bind (PathAddr addr))) eqn:Eb,
             (sys_error env (sock_listen backlog)) eqn:El;
      cbn [and_then raised];
      (split;
       [ intros R; try discriminate R;
         (split; [reflexivity|]); (split; [auto|]);
         eexists; (split; [reflexivity|]); split; assumption
       | intros (H1 & H2 & args & Ha & Hb & Hl);
         try discriminate H1; try discriminate Hl;
         try (injection Ha as <-; congruence);
         try (destruct (H2 eq_refl) as [H|H]; discriminate H);
         reflexivity ]).
  - destruct (sys_error env (create_socket AF_INET SOCK_STREAM)) eqn:Ec;
      cbn [and_then raised].
    + split; [discriminate|]. intros (H1 & _). discriminate H1.
    + destruct (py_int env (last (split_on COLON addr) [])) as [port|].
      * destruct (sys_error env (sock_bind
                    (HostPort (join [COLON] (removelast (split_on COLON addr)))
                       port))) eqn:Eb,
                 (sys_error env (sock_listen backlog)) eqn:El;
          cbn [and_then raised];
          (split;
           [ intros R; try discriminate R;
             (split; [reflexivity|]); (split; [discriminate|]);
             eexists; (split; [reflexivity|]); split; assumption
           | intros (_ & _ & args & Ha & Hb & Hl);
             try discriminate Hl;
             try (injection Ha as <-; congruence);
             reflexivity ]).
      * cbn [raised]. split; [discriminate|].
        intros (_ & _ & args & Ha & _). discriminate Ha.
Qed.

Lemma CommandServer_init_returns_witness :
  raised (CommandServer_init quiet_env (str "0.0.0.0:7000") 5 (fresh_world []))
  = None.
Proof.
  apply (proj2 (@CommandServer_init_returns quiet_env (str "0.0.0.0:7000") 5
                  (fresh_world []))).
  split; [reflexivity|]. split; [discriminate|].
  exists (HostPort (str "0.0.0.0") 7000). repeat split.
Defined.

(** X8. What a constructor that returns has done, in order: the socket is
    created and set to reuse its address; for a Unix address the file at the
    address is removed (and the removal logged when it succeeded), for a TCP
    address no file is removed; then the socket is bound, and only then set
    to listen with the given backlog. *)
Theorem CommandServer_init_effects
    (env : Environment) (addr : pystr) (backlog : Z) (w : World)
    (args : bind_args) :
  raised (CommandServer_init env addr backlog w) = None ->
  chosen_bind_args env addr = inr args ->
  trace (final (CommandServer_init env addr backlog w))
  = trace w
    ++ [Sys (create_socket (socket_family addr) SOCK_STREAM); Sys set_reuse_addr]
    ++ match socket_family addr with
       | AF_UNIX =>
           Sys (os_remove addr)
           :: match sys_error env (os_remove addr) with
              | None =>
                  [Debug (str "Removed stale socket file " ++ [DQUOTE]
                          ++ str "%s" ++ [DQUOTE]) [PStr addr]]
              | Some _ => []
              end
       | AF_INET => []
       end
    ++ [Debug (str "Binding socket to " ++ [DQUOTE] ++ str "%s" ++ [DQUOTE])
              [PStr addr];
        Sys (sock_bind args);
        Debug (str "Setting socket listen backlog to " ++ [DQUOTE] ++ str "%s"
               ++ [DQUOTE]) [PInt backlog];
        Sys (sock_listen backlog)].
Proof.
  unfold CommandServer_init, chosen_bind_args, bind_and_listen,
    remove_stale_socket, os_call, inet_bind_args, debug.
  destruct (socket_family addr).
  - intros R A. injection A as <-. revert R.
    destruct (sys_error env (create_socket AF_UNIX SOCK_STREAM)),
             (sys_error env (os_remove addr)) as [[]|],
             (sys_error env (sock_bind (PathAddr addr))),
             (sys_error env (sock_listen backlog));
      cbn [and_then raised]; intros R; try discriminate R;
      cbn [final trace emit]; rewrite <- ?app_assoc; reflexivity.
  - destruct (py_int env (last (split_on COLON addr) [])) as [port|];
      intros R A; [|discriminate A]. injection A as <-. revert R.
    destruct (sys_error env (create_socket AF_INET SOCK_STREAM)),
             (sys_error env (sock_bind
                (HostPort (join [COLON] (removelast (split_on COLON addr))) port))),
             (sys_error env (sock_listen backlog));
      cbn [and_then raised]; intros R; try discriminate R;
      cbn [final trace emit]; rewrite <- ?app_assoc; reflexivity.
Qed.

Lemma CommandServer_init_effects_witness :
  List.length (trace (final (CommandServer_init quiet_env (str "/tmp/nite.sock") 5
                               (fresh_world [])))) = 8%nat.
Proof.
  rewrite (@CommandServer_init_effects quiet_env (str "/tmp/nite.sock") 5
             (fresh_world []) (PathAddr (str "/tmp/nite.sock"))
             eq_refl eq_refl).
  reflexivity.
Defined.

(** X9. An address with a colon whose last piece is not an integer (a path
    such as [/tmp/my:sock], or [host:]) makes the constructor raise
    [ValueError] once the socket exists: the TCP socket has been created and
    set to reuse its address, and it is never bound nor listening. *)
Theorem CommandServer_init_bad_port
    (env : Environment) (addr : pystr) (backlog : Z) (w : World) :
  contains COLON addr = true ->
  py_int env (last (split_on COLON addr) []) = None ->
  sys_error env (create_socket AF_INET SOCK_STREAM) = None ->
  CommandServer_init env addr backlog w
  = Raise ValueError
      (emit (emit w (Sys (create_socket AF_INET SOCK_STREAM)))
         (Sys set_reuse_addr)).
Proof.
  intros HC HP HS. unfold CommandServer_init.
  rewrite (socket_family_inet _ HC). unfold os_call, inet_bind_args.
  rewrite HS, HP. reflexivity.
Qed.

Lemma CommandServer_init_bad_port_witness :
  raised (CommandServer_init quiet_env (str "/tmp/my:sock") 5 (fresh_world []))
  = Some ValueError.
Proof.
  rewrite (@CommandServer_init_bad_port quiet_env (str "/tmp/my:sock") 5
             (fresh_world []) eq_refl eq_refl eq_refl).
  reflexivity.
Defined.

(* ================================================================= *)
(** ** More on the controller *)

(** However [start] ends, the registry is the built-in one. *)
Lemma start_rebuilds_handlers (env : Environment) (w : World) :
  handlers (self (final (start env w))) = Obj start_handlers.
Proof.
  unfold start. destruct (py_int env _); [|reflexivity].
  cbn [final]. destruct (truthy _); reflexivity.
Qed.

Lemma start_handlers_lookup (tok : pystr) :
  tok <> str "help" -> tok <> str "stop" -> tok <> str "reload" ->
  dict_get start_handlers tok = None.
Proof.
  intros H1 H2 H3. apply dict_get_None. cbn.
  intros [E|[E|[E|[]]]]; subst tok;
    [apply H1 | apply H2 | apply H3]; reflexivity.
Qed.

(** X10. [start] replaces the registry, it does not extend it: after any
    [start] that returns, every unhandled command whose token is not help,
    stop or reload is answered with the invalid-command message, whatever
    had been registered under that token before. *)
Theorem on_command_after_start
    (env env' : Environment) (w w1 : World) (cmd_event : CommandEvent) :
  start env w = Normal w1 ->
  handled cmd_event = false ->
  token cmd_event <> str "help" ->
  token cmd_event <> str "stop" ->
  token cmd_event <> str "reload" ->
  on_command env' (cmd_event, w1)
  = Normal (set_response cmd_event
              (Some (str "Invalid command: " ++ command cmd_event ++ [NL]
                     ++ str "Try using " ++ [DQUOTE] ++ str "help"
                     ++ [DQUOTE] ++ str " for a list of commands")), w1).
Proof.
  intros S Hh T1 T2 T3.
  pose proof (start_rebuilds_handlers env w) as R. rewrite S in R. cbn [final] in R.
  unfold on_command. rewrite Hh, R, (start_handlers_lookup T1 T2 T3).
  now rewrite percent_s_invalid_command.
Qed.

Lemma on_command_after_start_witness :
  response (fst (final (on_command quiet_env
     (CommandEvent_init (str "status"), final (start quiet_env plugin_world)))))
  = Some (str "Invalid command: status" ++ [NL]
          ++ str "Try using " ++ [DQUOTE] ++ str "help"
          ++ [DQUOTE] ++ str " for a list of commands").
Proof.
  refine (f_equal (fun o => response (fst (final o)))
            (@on_command_after_start quiet_env quiet_env plugin_world
               (final (start quiet_env plugin_world))
               (CommandEvent_init (str "status")) eq_refl eq_refl _ _ _));
    vm_compute; discriminate.
Defined.

(** X11. An unreadable listen backlog aborts [start] with [ValueError], also
    when the server is switched off by an empty bind address: the registry
    has been rebuilt by then, but no thread or termination event is made,
    nothing is logged and [on_command] is not registered. *)
Theorem start_bad_backlog (env : Environment) (w : World) :
  py_int env (configured_listen_backlog w) = None ->
  start env w
  = Raise ValueError
      {| self := {| handlers := Obj start_handlers;
                    server := server (self w);
                    thread := thread (self w);
                    terminate := terminate (self w) |};
         config := config w;
         listeners := listeners w;
         tty := tty w;
         trace := trace w |}.
Proof.
  unfold configured_listen_backlog, start. cbn [config with_self].
  intros ->. reflexivity.
Qed.

Lemma start_bad_backlog_witness :
  raised (start quiet_env
            (fresh_world [(bind_address_key, []);
                          (listen_backlog_key, str "five")]))
  = Some ValueError.
Proof.
  rewrite (@start_bad_backlog quiet_env
             (fresh_world [(bind_address_key, []);
                           (listen_backlog_key, str "five")]) eq_refl).
  reflexivity.
Defined.

(** X12. The life cycle: with a readable backlog, [start] followed by [stop]
    returns with the thread made for the configured address and backlog and
    the termination event set when a bind address is configured; with an
    empty bind address on a controller that never had a thread, the same
    sequence ends in [AttributeError]. *)
Theorem start_then_stop (env : Environment) (w : World) (backlog : Z) :
  py_int env (configured_listen_backlog w) = Some backlog ->
  (configured_bind_address w <> [] ->
   exists w',
     start env w >>> stop = Normal w'
     /\ thread (self w')
        = Obj {| kw_bind_address := configured_bind_address w;
                 kw_listen_backlog := backlog |}
     /\ terminate (self w') = Obj {| is_set := true |}
     /\ listeners w' = listeners w ++ [on_command_registration]
     /\ trace w'
        = trace w
          ++ [Debug (str "Creating a thread to run the command server") [];
              ThreadStart {| kw_bind_address := configured_bind_address w;
                             kw_listen_backlog := backlog |};
              Debug (str "Attempting to terminate the command server thread") []])
  /\ (configured_bind_address w = [] ->
      thread (self w) = Missing ->
      raised (start env w >>> stop) = Some AttributeError).
Proof.
  unfold configured_bind_address, configured_listen_backlog, start.
  cbn [config with_self]. intros ->. split.
  - intros NE. apply truthy_true in NE. rewrite NE.
    eexists. split; [reflexivity|]. cbn. rewrite <- !app_assoc.
    repeat split.
  - intros -> M. cbn. unfold stop. cbn. now rewrite M.
Qed.

Lemma start_then_stop_witness :
  exists w',
    start quiet_env (fresh_world [(bind_address_key, str "localhost:7000")])
      >>> stop = Normal w'
    /\ terminate (self w') = Obj {| is_set := true |}.
Proof.
  destruct (proj1 (@start_then_stop quiet_env
                     (fresh_world [(bind_address_key, str "localhost:7000")])
                     5 eq_refl))
    as (w' & S & _ & T & _).
  - vm_compute. discriminate.
  - exists w'. split; assumption.
Defined.

(** X13. A reload served through a host whose [stop] and [start] are this
    module's: the event is untouched (no reply), but the set termination
    event is replaced by a fresh unset one, a second thread is started for
    the configured address, and [on_command] is registered once more. *)
Theorem on_reload_command_restarts
    (env env0 : Environment) (cmd_event : CommandEvent) (w : World)
    (t : Thread) (ev : ThreadingEvent) (backlog : Z) :
  (forall x, NITE_stop env x = stop x) ->
  (forall x, NITE_start env x = start env0 x) ->
  thread (self w) = Obj t ->
  terminate (self w) = Obj ev ->
  configured_bind_address w <> [] ->
  py_int env0 (configured_listen_backlog w) = Some backlog ->
  exists w',
    on_reload_command env (cmd_event, w) = Normal (cmd_event, w')
    /\ terminate (self w') = Obj {| is_set := false |}
    /\ thread (self w')
       = Obj {| kw_bind_address := configured_bind_address w;
                kw_listen_backlog := backlog |}
    /\ listeners w' = listeners w ++ [on_command_registration]
    /\ trace w'
       = trace w
         ++ [Debug (str "Attempting to terminate the command server thread") [];
             Debug (str "Creating a thread to run the command server") [];
             ThreadStart {| kw_bind_address := configured_bind_address w;
                            kw_listen_backlog := backlog |}].
Proof.
  intros Hstop Hstart Ht He NE Hb.
  unfold on_reload_command, on_snd, and_then. cbn [fst snd].
  rewrite Hstop. unfold stop. rewrite Ht. cbn [emit self]. rewrite He.
  cbn [fst snd]. rewrite Hstart.
  unfold configured_bind_address, configured_listen_backlog in *.
  unfold start. cbn [config with_self emit self]. rewrite Hb.
  apply truthy_true in NE. rewrite NE.
  eexists. split; [reflexivity|]. cbn. rewrite <- !app_assoc.
  repeat split.
Qed.

Lemma on_reload_command_restarts_witness :
  exists w',
    on_reload_command sample_env (CommandEvent_init (str "reload"), running_world)
    = Normal (CommandEvent_init (str "reload"), w')
    /\ terminate (self w') = Obj {| is_set := false |}
    /\ List.length (listeners w') = 2%nat.
Proof.
  destruct (@on_reload_command_restarts sample_env quiet_env
              (CommandEvent_init (str "reload")) running_world
              {| kw_bind_address := str "/tmp/nite.sock"; kw_listen_backlog := 5 |}
              {| is_set := false |} 5
              (fun _ => eq_refl) (fun _ => eq_refl) eq_refl eq_refl)
    as (w' & R & T & _ & L & _).
  - vm_compute. discriminate.
  - reflexivity.
  - exists w'. split; [exact R|]. split; [exact T|]. now rewrite L.
Defined.

(* ================================================================= *)
(** ** Accepting a connection *)

Lemma string_of_uint_no_colon (d : Decimal.uint) :
  contains COLON (str (NilEmpty.string_of_uint d)) = false.
Proof. induction d; simpl; auto. Qed.

Lemma string_of_uint_nz_no_colon (d : Decimal.uint) :
  contains COLON (str (NilZero.string_of_uint d)) = false.
Proof.
  destruct d; try reflexivity; unfold NilZero.string_of_uint;
    apply string_of_uint_no_colon.
Qed.

(** The decimal form of an integer has no colon. *)
Lemma py_str_int_no_colon (n : Z) : contains COLON (py_str_int n) = false.
Proof.
  unfold py_str_int, NilZero.string_of_int.
  destruct (Z.to_int n) as [d|d]; [apply string_of_uint_nz_no_colon|].
  change (contains COLON (45%N :: str (NilZero.string_of_uint d)) = false).
  unfold contains. cbn [existsb]. change (COLON =? 45)%N with false.
  cbn [orb]. apply string_of_uint_nz_no_colon.
Qed.

Lemma contains_app_sep (sep : N) (a b : pystr) :
  contains sep (a ++ sep :: b) = true.
Proof.
  unfold contains. rewrite existsb_app. simpl. rewrite N.eqb_refl.
  now rewrite orb_true_r.
Qed.

(** X14. A TCP peer (host, port) is recorded as host, a colon and the port in
    decimal, on a new connection with an empty send buffer placed after the
    connections already there; that address reads back, by the rule the
    constructor applies to bind addresses, as a TCP address with the same
    host and the same port text, colons in the host included.  When
    [accept] gave nothing, [handle_accept] raises [TypeError] and adds no
    connection; a peer without address is recorded as Unknown. *)
Theorem handle_accept_peer_address
    (env : Environment) (host : pystr) (port : Z)
    (w : World) (connections : list CommandHandler) :
  handle_accept (Some (AddrTuple [PStr host; PInt port])) (w, connections)
  = Normal
      (emit w (Debug (str "Client " ++ [DQUOTE] ++ str "%s" ++ [DQUOTE]
                      ++ str " connected to command server")
                     [PStr (host ++ COLON :: py_str_int port)]),
       connections
       ++ [{| client_address := host ++ COLON :: py_str_int port;
              out_buffer := [] |}])
  /\ socket_family (host ++ COLON :: py_str_int port) = AF_INET
  /\ inet_bind_args env (split_on COLON (host ++ COLON :: py_str_int port))
     = match py_int env (py_str_int port) with
       | Some p => inr (HostPort host p)
       | None => inl ValueError
       end
  /\ handle_accept None (w, connections) = Raise TypeError (w, connections)
  /\ (forall a, addr_truthy a = false ->
      exists w',
        handle_accept (Some a) (w, connections)
        = Normal (w', connections ++ [CommandHandler_init (str "Unknown")])).
Proof.
  pose proof (contains_app_sep COLON host (py_str_int port)) as HC.
  destruct (split_on_last COLON _ HC) as [E NC].
  destruct (last_sep_unique _ _ _ _ _ E (py_str_int_no_colon port) NC)
    as [Eh Et].
  split; [reflexivity|]. split; [now apply socket_family_inet|].
  split; [|split].
  - unfold inet_bind_args.
    match goal with
    | |- context [py_int env ?x] =>
        replace x with (py_str_int port) by exact Et
    end.
    match goal with
    | |- context [HostPort ?x _] => replace x with host by exact Eh
    end.
    reflexivity.
  - reflexivity.
  - intros a Ha. unfold handle_accept, printable_address. rewrite Ha.
    eexists. reflexivity.
Qed.

Example handle_accept_ipv6 :
  map client_address
    (snd (final (handle_accept (Some (AddrTuple [PStr (str "::1"); PInt 52100;
                                                 PInt 0; PInt 0]))
                   (running_world, [fresh_connection]))))
  = [str "Unknown"; str "::1:52100:0:0"].
Proof. reflexivity. Qed.

(* ================================================================= *)
(** ** The server thread *)

Section ServerLoop.

Variable poll : World -> outcome World.

(** The loop ends at the first check that finds the termination event set. *)
Lemma serve_until_set (k : nat) :
  forall (w wk : World),
    polls poll k w = Normal wk ->
    (forall j wj, (j < k)%nat -> polls poll j w = Normal wj ->
                  terminate (self wj) = Obj {| is_set := false |}) ->
    terminate (self wk) = Obj {| is_set := true |} ->
    forall fuel, (k < fuel)%nat -> serve poll fuel w = Some (Normal wk).
Proof.
  induction k as [|k IH]; intros w wk P U T fuel F;
    (destruct fuel as [|fuel]; [lia|]); cbn [serve].
  - injection P as <-. now rewrite T.
  - rewrite (U 0%nat w (Nat.lt_0_succ k) eq_refl). cbn [is_set].
    cbn [polls] in P. unfold and_then in P.
    destruct (poll w) as [w1|e w1] eqn:Pw; [|discriminate P].
    apply IH; [exact P | | exact T | lia].
    intros j wj Hj Pj. apply (U (S j) wj); [lia|].
    cbn [polls]. unfold and_then. now rewrite Pw.
Qed.

End ServerLoop.

(** X15. The server thread: when the constructor raises, [create_server]
    raises the same exception without assigning [server], polling or
    closing anything.  When it returns, the server is stored and the loop
    polls until the first check that finds the termination event set: if
    that is after [k] passes, [create_server] returns after exactly those
    passes and has closed the server, for every fuel above [k]. *)
Theorem create_server_runs_until_terminated
    (env : Environment) (poll : World -> outcome World)
    (addr : pystr) (backlog : Z) (w : World) :
  (forall e w1 fuel,
      CommandServer_init env addr backlog w = Raise e w1 ->
      create_server env poll fuel addr backlog w = Some (Raise e (w1, false)))
  /\ (forall w1 args k wk fuel,
        CommandServer_init env addr backlog w = Normal w1 ->
        chosen_bind_args env addr = inr args ->
        let serving :=
          with_self w1
            {| handlers := handlers (self w1);
               server := Obj {| srv_family := socket_family addr;
                                srv_bind_args := args;
                                srv_listen_backlog := backlog |};
               thread := thread (self w1);
               terminate := terminate (self w1) |} in
        polls poll k serving = Normal wk ->
        (forall j wj, (j < k)%nat -> polls poll j serving = Normal wj ->
                      terminate (self wj) = Obj {| is_set := false |}) ->
        terminate (self wk) = Obj {| is_set := true |} ->
        (k < fuel)%nat ->
        create_server env poll fuel addr backlog w = Some (Normal (wk, true))).
Proof.
  split.
  - intros e w1 fuel I. unfold create_server. now rewrite I.
  - intros w1 args k wk fuel I A serving P U T F.
    unfold create_server. rewrite I, A. fold serving.
    pose proof (@serve_until_set poll k serving wk P U T fuel F) as Sv.
    now rewrite Sv.
Qed.

Lemma create_server_runs_until_terminated_witness :
  exists wk,
    create_server quiet_env stop 2 (str "/tmp/nite.sock") 5 running_world
    = Some (Normal (wk, true))
    /\ terminate (self wk) = Obj {| is_set := true |}.
Proof.
  eexists. split.
  - refine (proj2 (@create_server_runs_until_terminated quiet_env stop
                     (str "/tmp/nite.sock") 5 running_world)
              _ (PathAddr (str "/tmp/nite.sock")) 1%nat _ 2%nat
              eq_refl eq_refl eq_refl _ eq_refl _).
    + intros j wj Hj. assert (j = 0%nat) as -> by lia.
      intros [= <-]. reflexivity.
    + lia.
  - reflexivity.
Defined.

(* ================================================================= *)
(** ** The wire format *)

(** X17. The command of every CommandEvent that [handle_read] builds can be
    encoded as UTF-8: the decoder drops what is not a Unicode scalar value,
    surrogates included, so a reply that quotes the command never fails to
    encode. *)
Theorem command_text_encodable (chunk : bytes) :
  exists out, encode (decode_ignore (bytes_rstrip chunk)) = Some out.
Proof. apply encode_decode_ignore_defined. Qed.

(** X18. What [reply] sends reads back as the response: for a response that
    does not end in an ASCII whitespace character, the bytes queued are its
    encoding and a line feed, and decoding them the way [handle_read] decodes
    a chunk gives the response again. *)
Theorem reply_reads_back
    (h : CommandHandler) (cmd_event : CommandEvent) (w : World)
    (text : pystr) (c : N) (payload : bytes) :
  response cmd_event = Some (text ++ [c]) ->
  ascii_space c = false ->
  encode ((text ++ [c]) ++ [NL]) = Some payload ->
  reply h cmd_event w = Normal (send h payload, w)
  /\ decode_ignore (bytes_rstrip payload) = text ++ [c].
Proof.
  intros R A E. split.
  - unfold reply. rewrite R.
    destruct (text ++ [c]) eqn:T; [now destruct text|].
    cbn [truthy]. now rewrite E.
  - destruct (encode_app_inv _ _ E) as (body & nl & Eb & En & ->).
    apply (decode_rstrip_encoded _ _ nl Eb A).
    simpl in En. injection En as <-. reflexivity.
Qed.

Lemma reply_reads_back_witness :
  decode_ignore (bytes_rstrip (lit "Stopping" ++ [x0a])) = str "Stopping".
Proof.
  refine (proj2 (@reply_reads_back fresh_connection
                   {| command := str "stop"; response := Some (str "Stopping");
                      handled := true |}
                   running_world (str "Stoppin") 103%N
                   (lit "Stopping" ++ [x0a]) eq_refl eq_refl eq_refl)).
Defined.
